(** * Docset resolution pipeline: URL normalisation, generator detection,
      fetch fallback and search-index probing

    A shallow embedding of [src/lib/docset] (detect.ts, index.ts, search.ts,
    types.ts, markdown.ts) together with the properties of the
    natural-language specification that concern it.

    Conventions.
    - A JavaScript string is a [list ascii]: a sequence of code units, each
      below 256.  String literals are written as usual and coerced.
    - Exceptions are values of [result]; [async] functions run in the monad
      [M], which threads the log of requests handed to the injected fetch
      capability.
    - Platform classes are modelled once, in their own modules: [Regex] is a
      backtracking matcher with the ECMAScript priorities (leftmost, greedy),
      [Url] is the WHATWG URL class for [http] and [https].
    - What the code obtains from other libraries ([JSON.parse], the DOM and
      the Markdown converter) and the injected capabilities are parameters
      of the functions that use them. *)

From Stdlib Require Import Ascii String DecimalString.
From Stdlib Require Import Bool Arith NArith ZArith Lia List Permutation Sorted.
Import ListNotations.

Open Scope string_scope.
Open Scope list_scope.
Open Scope nat_scope.

Set Implicit Arguments.

(** ** JavaScript strings *)

Definition lit (s : string) : list ascii := list_ascii_of_string s.
Coercion lit : string >-> list.

Module Str.

Definition t := list ascii.

Definition code (c : ascii) : N := N_of_ascii c.

Definition between (lo hi : N) (c : ascii) : bool :=
  (lo <=? code c)%N && (code c <=? hi)%N.

Definition eqc (a b : ascii) : bool := Ascii.eqb a b.

Fixpoint eqb (a b : t) : bool :=
  match a, b with
  | [], [] => true
  | x :: a', y :: b' => eqc x y && eqb a' b'
  | _, _ => false
  end.

(** [!s] for a string: the empty string is the only falsy one. *)
Definition isEmpty (s : t) : bool :=
  match s with [] => true | _ :: _ => false end.

(** White space in the sense of [String.prototype.trim] and of [\s],
    among the code units below 256: TAB, LF, VT, FF, CR, SP and NBSP. *)
Definition isWhitespace (c : ascii) : bool :=
  between 9 13 c || (code c =? 32)%N || (code c =? 160)%N.

Definition isDigit (c : ascii) : bool := between 48 57 c.
Definition isLowerAlpha (c : ascii) : bool := between 97 122 c.
Definition isUpperAlpha (c : ascii) : bool := between 65 90 c.
Definition isAlpha (c : ascii) : bool := isLowerAlpha c || isUpperAlpha c.

(** [toLowerCase] on one code unit: A-Z, and the Latin-1 capitals
    (192..222 without the multiplication sign 215). *)
Definition lowerChar (c : ascii) : ascii :=
  if isUpperAlpha c || (between 192 222 c && negb (code c =? 215)%N)
  then ascii_of_N (code c + 32)
  else c.

Definition toLowerCase (s : t) : t := map lowerChar s.

Fixpoint dropWhile (p : ascii -> bool) (s : t) : t :=
  match s with
  | [] => []
  | c :: s' => if p c then dropWhile p s' else s
  end.

(** Remove from both ends the code units satisfying [p]. *)
Definition strip (p : ascii -> bool) (s : t) : t :=
  rev (dropWhile p (rev (dropWhile p s))).

Definition trim (s : t) : t := strip isWhitespace s.

Fixpoint startsWith (s pre : t) {struct pre} : bool :=
  match pre, s with
  | [], _ => true
  | p :: pre', c :: s' => eqc p c && startsWith s' pre'
  | _ :: _, [] => false
  end.

Definition endsWith (s suf : t) : bool := startsWith (rev s) (rev suf).

Fixpoint includes (s needle : t) : bool :=
  startsWith s needle ||
  match s with
  | [] => false
  | _ :: s' => includes s' needle
  end.

(** [s.slice(0, -n)]. *)
Definition dropEnd (n : nat) (s : t) : t := firstn (length s - n) s.

(** [s.slice(n)]. *)
Definition dropStart (n : nat) (s : t) : t := skipn n s.

(** [s.slice(0, n)]. *)
Definition takeStart (n : nat) (s : t) : t := firstn n s.

(** [s.split(sep)] for a one-character separator. *)
Fixpoint splitOn (sep : ascii) (s : t) : list t :=
  match s with
  | [] => [[]]
  | c :: s' =>
      if eqc c sep then [] :: splitOn sep s'
      else match splitOn sep s' with
           | [] => [[c]]
           | w :: ws => (c :: w) :: ws
           end
  end.

(** [parts.filter(Boolean)] on an array of strings. *)
Definition filterNonEmpty (parts : list t) : list t :=
  filter (fun p => negb (isEmpty p)) parts.

(** [parts.pop()] read as a value: the last element, if any. *)
Definition pop (parts : list t) : option t :=
  match rev parts with [] => None | p :: _ => Some p end.

(** The part of [s] up to and including its last [sep]: what
    [s.slice(0, s.lastIndexOf(sep) + 1)] returns (the empty string when
    [sep] does not occur, as [lastIndexOf] is then [-1]). *)
Definition throughLast (sep : ascii) (s : t) : t :=
  rev (dropWhile (fun c => negb (eqc c sep)) (rev s)).

(** Cut [s] at the first code unit satisfying [p]: the part before it, and
    the part after it when there is one. *)
Fixpoint cut (p : ascii -> bool) (s : t) : t * option t :=
  match s with
  | [] => ([], None)
  | c :: s' =>
      if p c then ([], Some s')
      else let '(a, b) := cut p s' in (c :: a, b)
  end.

(** Split [s] in front of the first code unit satisfying [p]. *)
Fixpoint break (p : ascii -> bool) (s : t) : t * t :=
  match s with
  | [] => ([], [])
  | c :: s' =>
      if p c then ([], s)
      else let '(a, b) := break p s' in (c :: a, b)
  end.

Definition isChar (x : ascii) (c : ascii) : bool := eqc c x.

(** Decimal rendering of a number inside a template literal. *)
Definition ofN (n : N) : t :=
  list_ascii_of_string (NilZero.string_of_uint (N.to_uint n)).

End Str.

(** ** Regular expressions

    The patterns of the source are few and small; each is written below as a
    term of [regex], and matched by a backtracking matcher in
    continuation-passing style.  Alternatives are tried left to right and
    [Star] is greedy, which gives the ECMAScript answer; an iteration of
    [Star] that consumes nothing is refused, as in the standard. *)

Module Regex.

Inductive regex : Type :=
| Eps                              (* the empty pattern *)
| Bol                              (* ^ *)
| Eol                              (* $ *)
| Chr (p : ascii -> bool)          (* one code unit of a class *)
| Seq (r1 r2 : regex)
| Alt (r1 r2 : regex)
| Star (r : regex)
| Grp (g : nat) (r : regex).       (* capture group number g *)

(** Captures: the groups closed so far, most recent first. *)
Definition captures := list (nat * Str.t).

Fixpoint group (g : nat) (caps : captures) : option Str.t :=
  match caps with
  | [] => None
  | (h, v) :: caps' => if Nat.eqb h g then Some v else group g caps'
  end.

Section Matcher.
Variable A : Type.

(** [run r i s caps k]: match [r] in front of [s], the input from index
    [i] on, and hand the index, the rest and the captures to [k]; the
    first success of [k] wins. *)
Fixpoint run (r : regex) (i : nat) (s : Str.t) (caps : captures)
    (k : nat -> Str.t -> captures -> option A) {struct r} : option A :=
  match r with
  | Eps => k i s caps
  | Bol => if Nat.eqb i 0 then k i s caps else None
  | Eol => match s with [] => k i s caps | _ :: _ => None end
  | Chr p =>
      match s with
      | c :: s' => if p c then k (S i) s' caps else None
      | [] => None
      end
  | Seq r1 r2 => run r1 i s caps (fun i' s' caps' => run r2 i' s' caps' k)
  | Alt r1 r2 =>
      match run r1 i s caps k with
      | Some a => Some a
      | None => run r2 i s caps k
      end
  | Star r1 =>
      (fix loop (fuel : nat) (i : nat) (s : Str.t) (caps : captures)
           {struct fuel} : option A :=
         match fuel with
         | 0 => k i s caps
         | S fuel' =>
             match run r1 i s caps
                     (fun i' s' caps' =>
                        if i <? i' then loop fuel' i' s' caps' else None)
             with
             | Some a => Some a
             | None => k i s caps
             end
         end) (length s) i s caps
  | Grp g r1 =>
      run r1 i s caps
        (fun i' s' caps' => k i' s' ((g, firstn (i' - i) s) :: caps'))
  end.
End Matcher.

(** A match: where it starts, where it ends, what follows, the groups. *)
Record found : Type := Found {
  start : nat;
  stop : nat;
  rest : Str.t;
  groups : captures
}.

Definition matchAt (r : regex) (i : nat) (s : Str.t) : option found :=
  run r i s [] (fun j s' caps => Some (Found i j s' caps)).

(** [RegExp.prototype.exec] without flags: the leftmost match. [s] is the
    input from index [i] on. *)
Fixpoint searchFrom (r : regex) (i : nat) (s : Str.t) : option found :=
  match matchAt r i s with
  | Some m => Some m
  | None =>
      match s with
      | [] => None
      | _ :: s' => searchFrom r (S i) s'
      end
  end.

Definition exec (r : regex) (s : Str.t) : option found := searchFrom r 0 s.

Definition test (r : regex) (s : Str.t) : bool :=
  match exec r s with Some _ => true | None => false end.

(** [s.matchAll(r)] with the [g] flag: the successive leftmost matches,
    each search resuming where the previous match stopped (one further
    after an empty match). *)
Fixpoint matchAllFrom (fuel : nat) (r : regex) (i : nat) (s : Str.t)
    : list found :=
  match fuel with
  | 0 => []
  | S fuel' =>
      match searchFrom r i s with
      | None => []
      | Some m =>
          let j := if stop m =? start m then S (stop m) else stop m in
          m :: matchAllFrom fuel' r j (skipn (j - i) s)
      end
  end.

Definition matchAll (r : regex) (s : Str.t) : list found :=
  matchAllFrom (S (length s)) r 0 s.

(** [s.split(r)]: the pieces of [s] between the matches of [r]; a match
    that ends where the current piece starts is skipped. [p] is the start
    of the current piece, [piece] what it holds so far (reversed), [s] the
    input from index [q] on. *)
Fixpoint splitFrom (r : regex) (piece : Str.t) (p q : nat) (s : Str.t)
    (fuel : nat) : list Str.t :=
  match fuel with
  | 0 => [rev piece ++ s]
  | S fuel' =>
      match s with
      | [] => [rev piece]
      | c :: s' =>
          match matchAt r q s with
          | Some m =>
              if stop m =? p then splitFrom r (c :: piece) p (S q) s' fuel'
              else rev piece ::
                   splitFrom r [] (stop m) (stop m) (rest m) fuel'
          | None => splitFrom r (c :: piece) p (S q) s' fuel'
          end
      end
  end.

Definition split (r : regex) (s : Str.t) : list Str.t :=
  match s with
  | [] => match matchAt r 0 [] with Some _ => [] | None => [[]] end
  | _ :: _ => splitFrom r [] 0 0 s (S (length s))
  end.

(** *** Pattern syntax *)

Definition any : regex := Chr (fun _ => true).
Definition chr (x : ascii) : regex := Chr (Str.isChar x).
Definition notChr (x : ascii) : regex := Chr (fun c => negb (Str.isChar x c)).
Definition opt (r : regex) : regex := Alt r Eps.
Definition plus (r : regex) : regex := Seq r (Star r).

(** A literal, and a literal under the [i] flag. *)
Fixpoint text (s : Str.t) : regex :=
  match s with
  | [] => Eps
  | c :: s' => Seq (chr c) (text s')
  end.

Definition chrI (x : ascii) : regex :=
  Chr (fun c => Str.eqc (Str.lowerChar c) (Str.lowerChar x)).

Fixpoint textI (s : Str.t) : regex :=
  match s with
  | [] => Eps
  | c :: s' => Seq (chrI c) (textI s')
  end.

(** [[a-z0-9]] under the [i] flag, [[a-z]] under the [i] flag, [\d],
    [\s]. *)
Definition alnumI : regex := Chr (fun c => Str.isAlpha c || Str.isDigit c).
Definition alphaI : regex := Chr Str.isAlpha.
Definition digit : regex := Chr Str.isDigit.
Definition space : regex := Chr Str.isWhitespace.

Definition seqs (rs : list regex) : regex := fold_right Seq Eps rs.

End Regex.

(** ** The URL class

    The WHATWG URL record for [http] and [https], in generic syntax:
    scheme, host, path, query, fragment.  As the platform parser does, the
    model drops control characters and spaces around the input and tabs
    and newlines inside it, skips the slashes after the scheme, lower-cases
    the scheme and the host, refuses a host written with a forbidden
    character, reads an empty path as the root, folds backslashes of the
    path into slashes and percent-encodes path, query and fragment.  A
    port or credentials stay part of [host] as written; dot segments,
    default ports, percent-decoding of the host and hosts outside ASCII are
    outside the model. *)

Module Url.

Record t : Type := Make {
  scheme : Str.t;            (* without the colon *)
  host : Str.t;
  pathname : Str.t;
  query : option Str.t;      (* without the question mark *)
  fragment : option Str.t    (* without the number sign *)
}.

Definition isC0OrSpace (c : ascii) : bool := (Str.code c <=? 32)%N.

Definition isTabOrNewline (c : ascii) : bool :=
  (Str.code c =? 9)%N || (Str.code c =? 10)%N || (Str.code c =? 13)%N.

Definition isSlash (c : ascii) : bool :=
  Str.isChar "/" c || Str.isChar "\" c.

(** The input as the parser reads it. *)
Definition clean (input : Str.t) : Str.t :=
  filter (fun c => negb (isTabOrNewline c)) (Str.strip isC0OrSpace input).

(** The percent-encode sets of the standard. *)
Definition c0ControlSet (c : ascii) : bool :=
  (Str.code c <=? 31)%N || (126 <? Str.code c)%N.

Definition fragmentSet (c : ascii) : bool :=
  c0ControlSet c || Str.isChar " " c || Str.isChar "034" c
  || Str.isChar "<" c || Str.isChar ">" c || Str.isChar "`" c.

Definition querySet (c : ascii) : bool :=
  c0ControlSet c || Str.isChar " " c || Str.isChar "034" c
  || Str.isChar "#" c || Str.isChar "<" c || Str.isChar ">" c.

Definition specialQuerySet (c : ascii) : bool :=
  querySet c || Str.isChar "'" c.

Definition pathSet (c : ascii) : bool :=
  querySet c || Str.isChar "?" c || Str.isChar "^" c || Str.isChar "`" c
  || Str.isChar "{" c || Str.isChar "}" c.

Definition hexDigit (n : N) : ascii :=
  nth (N.to_nat n) (lit "0123456789ABCDEF") "0"%char.

Definition percentByte (b : N) : Str.t :=
  ["%"%char; hexDigit (b / 16); hexDigit (b mod 16)].

(** The UTF-8 bytes of a code unit below 256. *)
Definition utf8 (c : ascii) : list N :=
  if (Str.code c <? 128)%N then [Str.code c]
  else [(192 + Str.code c / 64)%N; (128 + Str.code c mod 64)%N].

Definition percentEncodeChar (set : ascii -> bool) (c : ascii) : Str.t :=
  if set c then flat_map percentByte (utf8 c) else [c].

Definition percentEncode (set : ascii -> bool) (s : Str.t) : Str.t :=
  flat_map (percentEncodeChar set) s.

Definition encodePath (p : Str.t) : Str.t :=
  percentEncode pathSet
    (map (fun c => if Str.isChar "\" c then "/"%char else c) p).

Definition encodeQuery (q : Str.t) : Str.t := percentEncode specialQuerySet q.

Definition encodeFragment (f : Str.t) : Str.t := percentEncode fragmentSet f.

(** A character a host can be written with: printable ASCII that is not a
    forbidden host code point and does not end the authority. *)
Definition hostChar (c : ascii) : bool :=
  Str.between 33 126 c
  && negb (isSlash c || Str.isChar "?" c || Str.isChar "#" c
           || Str.isChar "<" c || Str.isChar ">" c || Str.isChar "^" c
           || Str.isChar "|" c).

(** The special scheme in front of [s], with what follows the slashes. *)
Definition splitScheme (s : Str.t) : option (Str.t * Str.t) :=
  if Str.startsWith (Str.toLowerCase (firstn 6 s)) "https:"
  then Some (lit "https", Str.dropWhile isSlash (skipn 6 s))
  else if Str.startsWith (Str.toLowerCase (firstn 5 s)) "http:"
  then Some (lit "http", Str.dropWhile isSlash (skipn 5 s))
  else None.

(** [new URL(input)]; [None] when it throws. *)
Definition parse (input : Str.t) : option t :=
  match splitScheme (clean input) with
  | None => None
  | Some (sch, afterScheme) =>
      let '(beforeHash, frag) := Str.cut (Str.isChar "#") afterScheme in
      let '(beforeQuery, q) := Str.cut (Str.isChar "?") beforeHash in
      let '(authority, path) := Str.break isSlash beforeQuery in
      if Str.isEmpty authority || negb (forallb hostChar authority)
      then None
      else Some (Make sch (Str.toLowerCase authority)
                      (encodePath (if Str.isEmpty path then lit "/" else path))
                      (option_map encodeQuery q)
                      (option_map encodeFragment frag))
  end.

Definition origin (u : t) : Str.t := scheme u ++ "://" ++ host u.

Definition search (u : t) : Str.t :=
  match query u with
  | Some q => if Str.isEmpty q then [] else "?" ++ q
  | None => []
  end.

Definition hash (u : t) : Str.t :=
  match fragment u with
  | Some f => if Str.isEmpty f then [] else "#" ++ f
  | None => []
  end.

Definition hostname (u : t) : Str.t :=
  fst (Str.break (Str.isChar ":") (host u)).

(** [u.toString()], also [u.href]. *)
Definition href (u : t) : Str.t :=
  origin u ++ pathname u
    ++ match query u with Some q => "?" ++ q | None => [] end
    ++ match fragment u with Some f => "#" ++ f | None => [] end.

Definition withoutLeading (x : ascii) (v : Str.t) : Str.t :=
  match v with
  | c :: v' => if Str.isChar x c then v' else v
  | [] => []
  end.

Definition startsWithSlash (v : Str.t) : bool :=
  match v with
  | c :: _ => isSlash c
  | [] => false
  end.

(** [u.hash = v], [u.search = v], [u.pathname = v]. *)
Definition setHash (v : Str.t) (u : t) : t :=
  Make (scheme u) (host u) (pathname u) (query u)
       (if Str.isEmpty v then None
        else Some (encodeFragment (withoutLeading "#" v))).

Definition setSearch (v : Str.t) (u : t) : t :=
  Make (scheme u) (host u) (pathname u)
       (if Str.isEmpty v then None
        else Some (encodeQuery (withoutLeading "?" v)))
       (fragment u).

Definition setPathname (v : Str.t) (u : t) : t :=
  Make (scheme u) (host u)
       (encodePath (if startsWithSlash v then v else "/" ++ v))
       (query u) (fragment u).

(** /^[a-z][a-z0-9+.-]*:/i : the reference carries a scheme of its own. *)
Definition schemeRe : Regex.regex :=
  Regex.seqs
    [Regex.Bol; Regex.alphaI;
     Regex.Star (Regex.Chr (fun c => Str.isAlpha c || Str.isDigit c
                    || Str.isChar "+" c || Str.isChar "." c
                    || Str.isChar "-" c));
     Regex.chr ":"].

(** [new URL(ref, base)]; [None] when it throws. *)
Definition resolve (ref base : Str.t) : option t :=
  let r := clean ref in
  if Regex.test schemeRe r then parse r
  else
    match parse base with
    | None => None
    | Some b =>
        if startsWithSlash r && startsWithSlash (skipn 1 r)
        then parse (scheme b ++ ":" ++ r)
        else
          let '(beforeHash, frag) := Str.cut (Str.isChar "#") r in
          let '(p, q) := Str.cut (Str.isChar "?") beforeHash in
          if Str.isEmpty p then
            Some (Make (scheme b) (host b) (pathname b)
                       (match q with
                        | Some _ => option_map encodeQuery q
                        | None => query b
                        end)
                       (option_map encodeFragment frag))
          else if startsWithSlash p then
            Some (Make (scheme b) (host b) (encodePath p)
                       (option_map encodeQuery q)
                       (option_map encodeFragment frag))
          else
            Some (Make (scheme b) (host b)
                       (encodePath (Str.throughLast "/" (pathname b) ++ p))
                       (option_map encodeQuery q)
                       (option_map encodeFragment frag))
    end.

End Url.

(** ** Outcomes and the fetch capability *)

(** A value, or the message of the [Error] thrown. *)
Inductive result (A : Type) : Type :=
| Ok (a : A)
| Throw (e : Str.t).

Arguments Ok {A} a.
Arguments Throw {A} e.

(** What the code passes to the injected [fetchWithRateLimit]: the URL and
    the [Accept] header (the [User-Agent] is drawn by the collaborator). *)
Record Request : Type := { url : Str.t; accept : Str.t }.

Record Response : Type := {
  ok : bool;
  status : N;
  statusText : Str.t;
  body : Str.t
}.

(** The capability: given the requests made so far (oldest first) and a new
    one, it settles with a response or rejects. *)
Definition Net : Type := list Request -> Request -> result Response.

(** Sequential asynchronous code: from the log of requests so far to the
    log afterwards and the outcome. *)
Definition M (A : Type) : Type := list Request -> list Request * result A.

Definition ret {A : Type} (a : A) : M A := fun log => (log, Ok a).

Definition throw {A : Type} (e : Str.t) : M A := fun log => (log, Throw e).

Definition bind {A B : Type} (m : M A) (f : A -> M B) : M B :=
  fun log =>
    match m log with
    | (log', Ok a) => f a log'
    | (log', Throw e) => (log', Throw e)
    end.

(** [try { m } catch (e) { handler e }]. *)
Definition tryCatch {A : Type} (m : M A) (handler : Str.t -> M A) : M A :=
  fun log =>
    match m log with
    | (log', Ok a) => (log', Ok a)
    | (log', Throw e) => handler e log'
    end.

Definition lift {A : Type} (r : result A) : M A := fun log => (log, r).

Declare Scope js_scope.
Delimit Scope js_scope with js.
Notation "x <- m ;; k" := (bind m (fun x => k))
  (at level 61, m at next level, right associativity) : js_scope.
Notation "' p <- m ;; k" := (bind m (fun x => let p := x in k))
  (at level 61, p pattern, m at next level, right associativity) : js_scope.
Open Scope js_scope.

Definition fetchWithRateLimit (net : Net) (r : Request) : M Response :=
  fun log => (log ++ [r], net log r).

(** [x || d] on strings. *)
Definition orElse (x d : Str.t) : Str.t := if Str.isEmpty x then d else x.

(** Characters that a literal cannot hold. *)
Definition dq : ascii := "034"%char.
Definition nl : ascii := "010"%char.
Definition nbsp : ascii := "160"%char.

(** ** types.ts *)

Definition docsetTypes : list Str.t :=
  [lit "apple"; lit "docusaurus"; lit "mkdocs"; lit "sphinx"; lit "typedoc";
   lit "jsdoc"; lit "rustdoc"; lit "godoc"; lit "pdoc"; lit "generic"].

(** [(typeof docsetTypes)[number]]. *)
Inductive DocsetType : Type :=
| apple | docusaurus | mkdocs | sphinx | typedoc
| jsdoc | rustdoc | godoc | pdoc | generic.

(** The string a value of [DocsetType] is at run time. *)
Definition tag (d : DocsetType) : Str.t :=
  match d with
  | apple => lit "apple"
  | docusaurus => lit "docusaurus"
  | mkdocs => lit "mkdocs"
  | sphinx => lit "sphinx"
  | typedoc => lit "typedoc"
  | jsdoc => lit "jsdoc"
  | rustdoc => lit "rustdoc"
  | godoc => lit "godoc"
  | pdoc => lit "pdoc"
  | generic => lit "generic"
  end.

Definition isType (d : DocsetType) (hint : option DocsetType) : bool :=
  match hint with
  | Some d' => Str.eqb (tag d') (tag d)
  | None => false
  end.

Record DocsetRequest : Type := {
  baseUrl : Str.t;
  path : option Str.t;
  docsetType : option DocsetType
}.

(** ** detect.ts *)

Definition quoteMark : Regex.regex :=
  Regex.Chr (fun c => Str.isChar dq c || Str.isChar "'" c).

Definition notQuoteMark : Regex.regex :=
  Regex.Chr (fun c => negb (Str.isChar dq c || Str.isChar "'" c)).

(** /<meta[^>]+name=[Q']generator[Q'][^>]*content=[Q']([^Q']+)[Q'][^>]*>/i
    where Q stands for the double quote. *)
Definition generatorRegex : Regex.regex :=
  Regex.seqs
    [Regex.textI "<meta"; Regex.plus (Regex.notChr ">");
     Regex.textI "name="; quoteMark; Regex.textI "generator"; quoteMark;
     Regex.Star (Regex.notChr ">");
     Regex.textI "content="; quoteMark;
     Regex.Grp 1 (Regex.plus notQuoteMark); quoteMark;
     Regex.Star (Regex.notChr ">"); Regex.chr ">"].

Definition getGenerator (html : Str.t) : Str.t :=
  match Regex.exec generatorRegex html with
  | Some m =>
      match Regex.group 1 (Regex.groups m) with
      | Some g => Str.toLowerCase g
      | None => []
      end
  | None => []
  end.

Definition hasAny (html : Str.t) (needles : list Str.t) : bool :=
  existsb (fun needle => Str.includes html needle) needles.

Definition isAppleHost (url : Str.t) : bool :=
  match Url.parse url with
  | Some parsed =>
      Str.endsWith (Url.hostname parsed) "developer.apple.com"
      || Str.eqb (Url.hostname parsed) "sosumi.ai"
  | None => false
  end.

Definition docusaurusMarkers : list Str.t :=
  [lit "id=" ++ [dq] ++ lit "__docusaurus" ++ [dq]; lit "data-docusaurus"].
Definition mkdocsMarkers : list Str.t :=
  [lit "md-content"; lit "data-md-color-scheme"].
Definition sphinxMarkers : list Str.t :=
  [lit "sphinxsidebar"; lit "wy-nav-side"].
Definition typedocMarkers : list Str.t :=
  [lit "tsd-kind"; lit "tsd-page-title"].
Definition jsdocMarkers : list Str.t :=
  [lit "jsdoc";
   lit "class=" ++ [dq] ++ lit "page" ++ [dq] ++ lit " id=" ++ [dq]
     ++ lit "main" ++ [dq]].
Definition rustdocMarkers : list Str.t :=
  [lit "rustdoc"; lit "rustdoc-search"].
Definition godocMarkers : list Str.t := [lit "pkg-overview"].
Definition pdocMarkers : list Str.t := [lit "pdoc"; lit "module-list"].

Definition detectDocsetType (html url : Str.t) : DocsetType :=
  let generator := getGenerator html in
  let lowerUrl := Str.toLowerCase url in
  if isAppleHost url then apple
  else if Str.includes generator "docusaurus" || hasAny html docusaurusMarkers
  then docusaurus
  else if Str.includes generator "mkdocs" || hasAny html mkdocsMarkers
  then mkdocs
  else if Str.includes generator "sphinx" || hasAny html sphinxMarkers
  then sphinx
  else if Str.includes generator "typedoc" || hasAny html typedocMarkers
  then typedoc
  else if Str.includes generator "jsdoc" || hasAny html jsdocMarkers
  then jsdoc
  else if Str.includes generator "rustdoc" || hasAny html rustdocMarkers
  then rustdoc
  else if Str.includes lowerUrl "pkg.go.dev"
          || Str.includes lowerUrl "godoc.org"
          || hasAny html godocMarkers
  then godoc
  else if Str.includes generator "pdoc" || hasAny html pdocMarkers
  then pdoc
  else generic.

(** ** index.ts: resolving and fetching one document *)

(** /^https?:\/\//i *)
Definition httpRe : Regex.regex :=
  Regex.seqs
    [Regex.Bol; Regex.textI "http"; Regex.opt (Regex.chrI "s");
     Regex.text "://"].

(** /\.[a-z0-9]+$/i *)
Definition fileRe : Regex.regex :=
  Regex.seqs [Regex.chr "."; Regex.plus Regex.alnumI; Regex.Eol].

Definition resolveTargetUrl (baseUrl : Str.t) (path : option Str.t)
    : result Str.t :=
  let trimmedBase := Str.trim baseUrl in
  if Str.isEmpty trimmedBase then Throw (lit "baseUrl is required")
  else
    (* [path?.trim()]: an absent path and an empty one are told apart
       nowhere below, both being falsy *)
    let trimmedPath :=
      match path with Some p => Str.trim p | None => [] end in
    if negb (Str.isEmpty trimmedPath) && Regex.test httpRe trimmedPath
    then Ok trimmedPath
    else
      let baseWithScheme :=
        if Regex.test httpRe trimmedBase then trimmedBase
        else "https://" ++ trimmedBase in
      match Url.parse baseWithScheme with
      | None => Throw (lit "Invalid URL")
      | Some parsedBase =>
          let basePath := Url.pathname parsedBase in
          let looksLikeFile := Regex.test fileRe basePath in
          let baseDir :=
            if Str.endsWith basePath "/" then basePath
            else if looksLikeFile then Str.throughLast "/" basePath
            else basePath ++ "/" in
          if Str.isEmpty trimmedPath then Ok (Url.href parsedBase)
          else
            match Url.resolve baseDir (Url.origin parsedBase) with
            | None => Throw (lit "Invalid URL")
            | Some baseForResolve =>
                let resolvedPath :=
                  if Str.startsWith trimmedPath "/"
                     && negb (Str.eqb baseDir "/")
                  then Str.dropStart 1 trimmedPath
                  else trimmedPath in
                match Url.resolve resolvedPath (Url.href baseForResolve) with
                | None => Throw (lit "Invalid URL")
                | Some u => Ok (Url.href u)
                end
            end
      end.

Definition stripHtmlExtension (url : Str.t) : Str.t :=
  match Url.parse url with
  | None => url
  | Some parsed =>
      let parsed :=
        if negb (Str.isEmpty (Url.hash parsed)) then Url.setHash [] parsed
        else parsed in
      let parsed :=
        if Str.endsWith (Url.pathname parsed) "index.html" then
          Url.setPathname
            (orElse (Str.dropEnd (length (lit "/index.html"))
                       (Url.pathname parsed)) "/") parsed
        else if Str.endsWith (Url.pathname parsed) "glossary.html" then
          parsed
        else if Str.endsWith (Url.pathname parsed) ".html" then
          Url.setPathname
            (Str.dropEnd (length (lit ".html")) (Url.pathname parsed)) parsed
        else parsed in
      let parsed :=
        if negb (Str.eqb (Url.pathname parsed) "/")
           && Str.endsWith (Url.pathname parsed) "/"
        then Url.setPathname (Str.dropEnd 1 (Url.pathname parsed)) parsed
        else parsed in
      Url.href parsed
  end.

(** What a successful resolution returns.  [docType] is a string: the code
    stores in it a [DocsetType] or the literal [html]. *)
Record Document : Type := {
  markdown : Str.t;
  docUrl : Str.t;
  docType : Str.t
}.

Section Document.

(** The injected fetch capability. *)
Variable net : Net.

(** [turndownService.turndown] on a container holding the fragment. *)
Variable turndown : Str.t -> Str.t.

(** [extractDocContent] of extract.ts, which works on the DOM built by
    the HTML parser: the title and the inner markup of the main content. *)
Variable extractDocContent : Str.t -> DocsetType -> Str.t * Str.t.

(** The Apple branch (lines 174-223), whose renderers live in other
    modules.  It settles with the document it returns, or, when its
    [catch] sets [forceGeneric], with the value [genericFallbackUrl] has by
    then; the [catch] leaves no exception through. *)
Variable appleDocument : Str.t -> M (Document + Str.t).

Definition htmlToMarkdown (html : Str.t) : Str.t :=
  let cleaned :=
    Str.trim (map (fun c => if Str.isChar nbsp c then " "%char else c) html)
  in
  if Str.isEmpty cleaned then []
  else Str.trim (turndown cleaned).

Definition fetchHtml (u : Str.t) : M Str.t :=
  response <- fetchWithRateLimit net {| url := u; accept := "text/html" |} ;;
  if negb (ok response) then
    throw ("Failed to fetch HTML: " ++ Str.ofN (status response)
             ++ " " ++ statusText response)
  else ret (body response).

(** Lines 225-246.  The locals [html] and [fetchUrl] are threaded as a
    pair; [html] is unassigned ([None]) until a fetch succeeds. *)
Definition fetchWithFallbacks (resolvedUrl targetUrl genericFallbackUrl
    : Str.t) : M (Str.t * Str.t) :=
  let fetchUrl := genericFallbackUrl in
  tryCatch
    (html <- fetchHtml fetchUrl ;; ret (html, fetchUrl))
    (fun error =>
       ' (html, fetchUrl) <-
         (if negb (Str.endsWith fetchUrl "/")
             && negb (Regex.test fileRe fetchUrl)
          then
            let withSlash := fetchUrl ++ "/" in
            tryCatch
              (html <- fetchHtml withSlash ;; ret (Some html, withSlash))
              (fun _ => ret (None, fetchUrl))
          else ret (None, fetchUrl)) ;;
       if negb (Str.eqb resolvedUrl targetUrl) then
         let fetchUrl := resolvedUrl in
         html <- fetchHtml fetchUrl ;;
         ret (html, fetchUrl)
       else throw error).

Definition fetchDocumentationMarkdown (request : DocsetRequest)
    : M Document :=
  resolvedUrl <- lift (resolveTargetUrl (baseUrl request) (path request)) ;;
  let targetUrl := stripHtmlExtension resolvedUrl in
  let isApple := isType apple (docsetType request) || isAppleHost targetUrl in
  viaApple <-
    (if isApple then
       r <- appleDocument targetUrl ;;
       match r with
       | inl doc => ret (inl doc)
       | inr genericFallbackUrl => ret (inr (genericFallbackUrl, true))
       end
     else ret (inr (targetUrl, false))) ;;
  match viaApple with
  | inl doc => ret doc
  | inr (genericFallbackUrl, forceGeneric) =>
      ' (html, fetchUrl) <-
        fetchWithFallbacks resolvedUrl targetUrl genericFallbackUrl ;;
      let detected :=
        if forceGeneric then generic
        else match docsetType request with
             | Some d => d
             | None => detectDocsetType html fetchUrl
             end in
      let '(title, contentHtml) := extractDocContent html detected in
      let markdown0 := htmlToMarkdown contentHtml in
      let '(markdown1, docsetType1) :=
        if Str.isEmpty markdown0 then (htmlToMarkdown html, lit "html")
        else (markdown0, tag detected) in
      let markdown2 :=
        if negb (Str.isEmpty title)
           && negb (Str.startsWith markdown1 ("# " ++ title))
        then "# " ++ title ++ [nl; nl] ++ markdown1
        else markdown1 in
      ret {| markdown := markdown2; docUrl := fetchUrl;
             docType := docsetType1 |}
  end.

End Document.

(** ** search.ts: locating and reading a search index *)

Definition searchIndexPaths : list Str.t :=
  [lit "search/search_index.json"; lit "searchindex.json"; lit "search.json";
   lit "search-index.json"; lit "searchindex.js"].

Definition andThen {A B : Type} (r : result A) (f : A -> result B)
    : result B :=
  match r with
  | Ok a => f a
  | Throw e => Throw e
  end.

(** [new URL(...)] as an outcome: the constructor throws a [TypeError]. *)
Definition newURL (u : option Url.t) : result Url.t :=
  match u with
  | Some v => Ok v
  | None => Throw (lit "Invalid URL")
  end.

Definition normalizeInputUrl (input : Str.t) : result Url.t :=
  let trimmed := Str.trim input in
  if Str.isEmpty trimmed then Throw (lit "baseUrl is required")
  else
    let withScheme :=
      if Regex.test httpRe trimmed then trimmed else "https://" ++ trimmed in
    andThen (newURL (Url.parse withScheme)) (fun parsed =>
      let parsed := Url.setHash [] parsed in
      let parsed := Url.setSearch [] parsed in
      let parsed :=
        if Str.endsWith (Url.pathname parsed) "/index.html" then
          Url.setPathname
            (orElse (Str.dropEnd (length (lit "/index.html"))
                       (Url.pathname parsed)) "/") parsed
        else parsed in
      Ok parsed).

Definition ensureTrailingSlash (u : Url.t) : Url.t :=
  let looksLikeFile := Regex.test fileRe (Url.pathname u) in
  if negb looksLikeFile && negb (Str.endsWith (Url.pathname u) "/")
  then Url.setPathname (Url.pathname u ++ "/") u
  else u.

(** The set [seen] is a list searched for membership; [result] grows at its
    end, as [push] does. *)
Fixpoint dedupeLoop (values seen result : list Str.t) : list Str.t :=
  match values with
  | [] => result
  | value :: values' =>
      if existsb (Str.eqb value) seen then dedupeLoop values' seen result
      else dedupeLoop values' (value :: seen) (result ++ [value])
  end.

Definition dedupePreserveOrder (values : list Str.t) : list Str.t :=
  dedupeLoop values [] [].

(** /^\/([a-z]{2}(?:-[a-z]{2})?)\/([^/]+)\//i *)
Definition versionedRe : Regex.regex :=
  Regex.seqs
    [Regex.Bol; Regex.chr "/";
     Regex.Grp 1
       (Regex.seqs
          [Regex.alphaI; Regex.alphaI;
           Regex.opt (Regex.seqs [Regex.chr "-"; Regex.alphaI; Regex.alphaI])]);
     Regex.chr "/";
     Regex.Grp 2 (Regex.plus (Regex.notChr "/"));
     Regex.chr "/"].

(** /^v?\d/i and /^\d+\.\d+/ *)
Definition vDigitRe : Regex.regex :=
  Regex.seqs [Regex.Bol; Regex.opt (Regex.chrI "v"); Regex.digit].
Definition dottedRe : Regex.regex :=
  Regex.seqs
    [Regex.Bol; Regex.plus Regex.digit; Regex.chr "."; Regex.plus Regex.digit].

Definition knownVersions : list Str.t :=
  [lit "latest"; lit "stable"; lit "dev"; lit "master"; lit "main";
   lit "default"; lit "current"].

Definition guessVersionedDocsRootPath (pathname : Str.t) : option Str.t :=
  match Regex.exec versionedRe pathname with
  | None => None
  | Some m =>
      match Regex.group 1 (Regex.groups m), Regex.group 2 (Regex.groups m) with
      | Some lang, Some version =>
          let versionLower := Str.toLowerCase version in
          let looksLikeVersion :=
            existsb (Str.eqb versionLower) knownVersions
            || Regex.test vDigitRe versionLower
            || Regex.test dottedRe versionLower in
          if negb looksLikeVersion then None
          else Some ("/" ++ lang ++ "/" ++ version ++ "/")
      | _, _ => None
      end
  end.

Definition buildSearchBaseCandidates (baseUrl : Str.t)
    : result (list Str.t) :=
  andThen (normalizeInputUrl baseUrl) (fun parsed =>
  andThen (newURL (Url.resolve "/" (Url.origin parsed))) (fun root =>
  let originRoot := Url.href root in
  andThen (newURL (Url.parse (Url.href parsed))) (fun copy =>
  let currentDir := Url.href (ensureTrailingSlash copy) in
  andThen
    (match guessVersionedDocsRootPath (Url.pathname parsed) with
     | Some versionedRootPath =>
         andThen (newURL (Url.resolve versionedRootPath (Url.origin parsed)))
           (fun u => Ok [Url.href u])
     | None => Ok []
     end) (fun candidates1 =>
  let segments :=
    Str.filterNonEmpty (Str.splitOn "/" (Url.pathname parsed)) in
  andThen
    (match segments with
     | first :: _ =>
         andThen
           (newURL (Url.resolve ("/" ++ first ++ "/") (Url.origin parsed)))
           (fun u => Ok (candidates1 ++ [Url.href u]))
     | [] => Ok candidates1
     end) (fun candidates2 =>
  Ok (dedupePreserveOrder (candidates2 ++ [currentDir; originRoot]))))))).

Definition normalizeQuery (query : Str.t) : Str.t :=
  Str.toLowerCase (Str.trim query).

Definition toAbsoluteUrl (baseUrl href : Str.t) : Str.t :=
  match Url.resolve href baseUrl with
  | Some u => Url.href u
  | None => href
  end.

Definition fetchText (net : Net) (u : Str.t) : M Str.t :=
  response <-
    fetchWithRateLimit net
      {| url := u; accept := "application/json, text/plain, text/html" |} ;;
  if negb (ok response) then
    throw ("Failed to fetch search index: " ++ Str.ofN (status response)
             ++ " " ++ statusText response)
  else ret (body response).

Module SearchResult.
Record t : Type := Make {
  title : Str.t;
  url : Str.t;
  snippet : Str.t;
  source : Str.t
}.
End SearchResult.

(** The shapes the parsed JSON is cast to.  An absent property and a
    [null] are both [None]. *)
Module MkDoc.
Record t : Type := Make {
  title : option Str.t;
  text : option Str.t;
  location : option Str.t
}.
End MkDoc.

(** A term's posting, of type [unknown] in the source. *)
#[warnings="-register-all"]
Inductive JValue : Type :=
| JNum (n : Z)
| JArr (items : list JValue)
| JOther.

Module SphinxIndex.
Record t : Type := Make {
  docnames : option (list (option Str.t));
  titles : option (list (option Str.t));
  filenames : option (list (option Str.t));
  terms : option (list (Str.t * JValue))
}.
End SphinxIndex.

Definition orEmpty {A : Type} (l : option (list A)) : list A :=
  match l with Some v => v | None => [] end.

Definition lowerOrEmpty (s : option Str.t) : Str.t :=
  match s with Some v => Str.toLowerCase v | None => [] end.

(** The part of [parseMkDocsIndex] after [JSON.parse]. *)
Definition mkDocsResults (docs : list MkDoc.t) (baseUrl query : Str.t)
    : list SearchResult.t :=
  map (fun doc =>
         SearchResult.Make
           (match MkDoc.title doc with Some v => v | None => lit "Untitled" end)
           (match MkDoc.location doc with
            | Some l =>
                if Str.isEmpty l then baseUrl else toAbsoluteUrl baseUrl l
            | None => baseUrl
            end)
           (match MkDoc.text doc with
            | Some v => Str.takeStart 200 v
            | None => []
            end)
           "mkdocs")
      (filter (fun doc =>
                 let title := lowerOrEmpty (MkDoc.title doc) in
                 let text := lowerOrEmpty (MkDoc.text doc) in
                 Str.includes title query || Str.includes text query)
              docs).

(** /[^a-z0-9_-]+/g *)
Definition separatorsRe : Regex.regex :=
  Regex.plus
    (Regex.Chr (fun c => negb (Str.isLowerAlpha c || Str.isDigit c
                               || Str.isChar "_" c || Str.isChar "-" c))).

Definition tokenizeQuery (query : Str.t) : list Str.t :=
  Str.filterNonEmpty
    (map Str.trim (Regex.split separatorsRe (Str.toLowerCase query))).

Definition extractSphinxDocIds (value : JValue) : list Z :=
  match value with
  | JNum n => [n]
  | JArr entries =>
      flat_map (fun entry =>
                  match entry with
                  | JNum n => [n]
                  | JArr (JNum n :: _) => [n]
                  | _ => []
                  end) entries
  | JOther => []
  end.

(** [obj[key]] on a parsed JSON object: [undefined] when absent. *)
Fixpoint property (key : Str.t) (obj : list (Str.t * JValue)) : JValue :=
  match obj with
  | [] => JOther
  | (k, v) :: obj' => if Str.eqb k key then v else property key obj'
  end.

(** [arr[index]] for a number that need not be an index. *)
Definition element (arr : list (option Str.t)) (index : Z) : option Str.t :=
  if (index <? 0)%Z then None
  else match nth_error arr (Z.to_nat index) with
       | Some v => v
       | None => None
       end.

(** The [Map] of scores, in insertion order.
    [bump k d scores] is [scores.set(k, (scores.get(k) ?? 0) + d)]. *)
Fixpoint bump (k : Z) (d : nat) (scores : list (Z * nat)) : list (Z * nat) :=
  match scores with
  | [] => [(k, d)]
  | (k', v) :: scores' =>
      if (k' =? k)%Z then (k', v + d) :: scores'
      else (k', v) :: bump k d scores'
  end.

(** [sort((a, b) => b[1] - a[1])]: descending score, and stable. *)
Fixpoint insertDesc (x : Z * nat) (l : list (Z * nat)) : list (Z * nat) :=
  match l with
  | [] => [x]
  | y :: l' => if snd x <? snd y then y :: insertDesc x l' else x :: l
  end.

Definition sortDesc (l : list (Z * nat)) : list (Z * nat) :=
  fold_right insertDesc [] l.

Definition tokenScores (terms : list (Str.t * JValue)) (tokens : list Str.t)
    (scores : list (Z * nat)) : list (Z * nat) :=
  fold_left (fun scores token =>
               fold_left (fun scores docId => bump docId 2 scores)
                         (extractSphinxDocIds (property token terms)) scores)
            tokens scores.

(** The loop over [titles.entries()]: [rest] is what remains of [titles]
    from position [index] on. *)
Fixpoint titleScores (docnames rest : list (option Str.t)) (index : nat)
    (query : Str.t) (scores : list (Z * nat)) : list (Z * nat) :=
  match rest with
  | [] => scores
  | title :: rest' =>
      let titleLower := lowerOrEmpty title in
      let docnameLower := lowerOrEmpty (element docnames (Z.of_nat index)) in
      titleScores docnames rest' (S index) query
        (if Str.includes titleLower query || Str.includes docnameLower query
         then bump (Z.of_nat index) 3 scores
         else scores)
  end.

Definition sphinxEntry (data : SphinxIndex.t) (baseUrl : Str.t) (index : Z)
    : SearchResult.t :=
  let docnames := orEmpty (SphinxIndex.docnames data) in
  let titles := orEmpty (SphinxIndex.titles data) in
  let filenames := orEmpty (SphinxIndex.filenames data) in
  let filename :=
    match element filenames index with
    | Some f => f
    | None =>
        match element docnames index with
        | Some d => if Str.isEmpty d then [] else d ++ ".html"
        | None => []
        end
    end in
  let url :=
    if Str.isEmpty filename then baseUrl else toAbsoluteUrl baseUrl filename in
  let title :=
    match element titles index with
    | Some t => t
    | None =>
        match element docnames index with
        | Some d => d
        | None => url
        end
    end in
  SearchResult.Make title url [] "sphinx".

Definition sphinxRanked (data : SphinxIndex.t) (query : Str.t)
    : list (Z * nat) :=
  let docnames := orEmpty (SphinxIndex.docnames data) in
  let titles := orEmpty (SphinxIndex.titles data) in
  let terms := orEmpty (SphinxIndex.terms data) in
  let tokens := tokenizeQuery query in
  let scores := tokenScores terms tokens [] in
  let scores := titleScores docnames titles 0 query scores in
  firstn 20 (sortDesc scores).

(** The part of [parseSphinxIndex] after [JSON.parse]. *)
Definition sphinxResults (data : SphinxIndex.t) (baseUrl query : Str.t)
    : list SearchResult.t :=
  filter (fun entry =>
            negb (Str.isEmpty (SearchResult.title entry))
            && negb (Str.isEmpty (SearchResult.url entry)))
         (map (fun e => sphinxEntry data baseUrl (fst e))
              (sphinxRanked data query)).

Definition objectLiteral : Regex.regex :=
  Regex.seqs [Regex.chr "{"; Regex.Star Regex.any; Regex.chr "}"].

(** /Search\.setIndex\((\{[\s\S]*\})\);/ and /var\s+index\s*=\s*(\{[\s\S]*\});/ *)
Definition setIndexRe : Regex.regex :=
  Regex.seqs
    [Regex.text "Search.setIndex("; Regex.Grp 1 objectLiteral;
     Regex.text ");"].
Definition varIndexRe : Regex.regex :=
  Regex.seqs
    [Regex.text "var"; Regex.plus Regex.space; Regex.text "index";
     Regex.Star Regex.space; Regex.chr "="; Regex.Star Regex.space;
     Regex.Grp 1 objectLiteral; Regex.chr ";"].

(** /<loc>([^<]+)<\/loc>/gi *)
Definition locRe : Regex.regex :=
  Regex.seqs
    [Regex.textI "<loc>"; Regex.Grp 1 (Regex.plus (Regex.notChr "<"));
     Regex.textI "</loc>"].

Definition parseSitemap (raw baseUrl query : Str.t) : list SearchResult.t :=
  let matches := Regex.matchAll locRe raw in
  map (fun loc =>
         SearchResult.Make
           (orElse (match Str.pop (Str.splitOn "/" loc) with
                    | Some p => p
                    | None => []
                    end) loc)
           (toAbsoluteUrl baseUrl loc) [] "sitemap")
      (filter (fun loc => Str.includes (Str.toLowerCase loc) query)
              (map (fun m =>
                      match Regex.group 1 (Regex.groups m) with
                      | Some g => g
                      | None => []
                      end) matches)).

(** [!results.length]. *)
Definition noResults (results : list SearchResult.t) : bool :=
  match results with [] => true | _ :: _ => false end.

(** A parser of an index body: raw text, base, query. *)
Definition Parser : Type :=
  Str.t -> Str.t -> Str.t -> result (list SearchResult.t).

Section Search.

Variable net : Net.

(** [JSON.parse] at the two shapes the source casts its value to; [None]
    when parsing throws, or when the value has another shape and reading
    it throws. *)
Variable jsonMkDocs : Str.t -> option (option (list MkDoc.t)).
Variable jsonSphinx : Str.t -> option SphinxIndex.t.

Definition parseMkDocsIndex : Parser := fun raw baseUrl query =>
  match jsonMkDocs raw with
  | None => Throw (lit "Unexpected token in JSON")
  | Some docs => Ok (mkDocsResults (orEmpty docs) baseUrl query)
  end.

Definition parseSphinxIndex : Parser := fun raw baseUrl query =>
  let found :=
    match Regex.exec setIndexRe raw with
    | Some m => Some m
    | None => Regex.exec varIndexRe raw
    end in
  match found with
  | None => Ok []
  | Some m =>
      let json :=
        match Regex.group 1 (Regex.groups m) with
        | Some g => g
        | None => []
        end in
      match jsonSphinx json with
      | None => Throw (lit "Unexpected token in JSON")
      | Some data => Ok (sphinxResults data baseUrl query)
      end
  end.

(** The body of the inner [try] (lines 297-310), for the two parsers
    given: [Some results] stands for [return results]. *)
Definition probeIndex (mk sx : Parser) (docsetType : option DocsetType)
    (base path normalizedQuery : Str.t)
    : M (option (list SearchResult.t)) :=
  let indexUrl := toAbsoluteUrl base path in
  raw <- fetchText net indexUrl ;;
  fromJson <-
    (if Str.endsWith path ".json"
        && (isType mkdocs docsetType
            || match docsetType with None => true | Some _ => false end)
     then
       results <- lift (mk raw base normalizedQuery) ;;
       ret (if noResults results then None else Some results)
     else ret None) ;;
  match fromJson with
  | Some results => ret (Some results)
  | None =>
      if Str.endsWith path ".js"
         && (isType sphinx docsetType
             || match docsetType with None => true | Some _ => false end)
      then
        results <- lift (sx raw base normalizedQuery) ;;
        ret (if noResults results then None else Some results)
      else ret None
  end.

End Search.

Section SearchLoops.

Variable net : Net.
Variables mk sx : Parser.
Variable docsetType : option DocsetType.
Variable normalizedQuery : Str.t.

(** The inner loop (line 295): every failure inside the [try] is
    swallowed and the loop goes on. *)
Fixpoint overPaths (base : Str.t) (paths : list Str.t)
    : M (option (list SearchResult.t)) :=
  match paths with
  | [] => ret None
  | path :: paths' =>
      returned <-
        tryCatch (probeIndex net mk sx docsetType base path normalizedQuery)
                 (fun _ => ret None) ;;
      match returned with
      | Some results => ret (Some results)
      | None => overPaths base paths'
      end
  end.

(** The outer loop (line 294). *)
Fixpoint overBases (bases paths : list Str.t)
    : M (option (list SearchResult.t)) :=
  match bases with
  | [] => ret None
  | base :: bases' =>
      returned <- overPaths base paths ;;
      match returned with
      | Some results => ret (Some results)
      | None => overBases bases' paths
      end
  end.

(** The loop inside the last [try] (lines 316-322); leaving it without a
    [return] reaches the final [return []]. *)
Fixpoint overSitemaps (bases : list Str.t) : M (list SearchResult.t) :=
  match bases with
  | [] => ret []
  | base :: bases' =>
      sitemap <- fetchText net (toAbsoluteUrl base "sitemap.xml") ;;
      let results := parseSitemap sitemap base normalizedQuery in
      if noResults results then overSitemaps bases'
      else ret results
  end.

End SearchLoops.

(** [searchDocumentation] for the two index parsers given. *)
Definition searchWith (net : Net) (mk sx : Parser) (baseUrl query : Str.t)
    (docsetType : option DocsetType) : M (list SearchResult.t) :=
  let normalizedQuery := normalizeQuery query in
  if Str.isEmpty normalizedQuery then ret []
  else
    bases <- lift (buildSearchBaseCandidates baseUrl) ;;
    let pathsToTry :=
      if isType mkdocs docsetType
      then filter (fun path => Str.endsWith path ".json") searchIndexPaths
      else if isType sphinx docsetType
      then filter (fun path => Str.endsWith path ".js") searchIndexPaths
      else searchIndexPaths in
    returned <-
      overBases net mk sx docsetType normalizedQuery bases pathsToTry ;;
    match returned with
    | Some results => ret results
    | None =>
        tryCatch (overSitemaps net normalizedQuery bases) (fun _ => ret [])
    end.

Definition searchDocumentation (net : Net)
    (jsonMkDocs : Str.t -> option (option (list MkDoc.t)))
    (jsonSphinx : Str.t -> option SphinxIndex.t)
    (baseUrl query : Str.t) (docsetType : option DocsetType)
    : M (list SearchResult.t) :=
  searchWith net (parseMkDocsIndex jsonMkDocs) (parseSphinxIndex jsonSphinx)
             baseUrl query docsetType.

(** The URL normaliser of the document path: [resolveTargetUrl] without a
    path argument, then [stripHtmlExtension]. *)
Definition normalizeUrl (baseUrl : Str.t) : result Str.t :=
  andThen (resolveTargetUrl baseUrl None) (fun resolvedUrl =>
    Ok (stripHtmlExtension resolvedUrl)).

(** ** Scenarios

    Concrete requests, pages and remote sites used by the properties
    below. *)

Definition notFound : Response :=
  {| ok := false; status := 404; statusText := "Not Found"; body := [] |}.

Definition okWith (text : Str.t) : Response :=
  {| ok := true; status := 200; statusText := "OK"; body := text |}.

Definition htmlRequest (u : Str.t) : Request :=
  {| url := u; accept := "text/html" |}.

Definition indexRequest (u : Str.t) : Request :=
  {| url := u; accept := "application/json, text/plain, text/html" |}.

(** A site that serves the guide only under its directory URL. *)
Definition guideSite : Net := fun _ r =>
  if Str.eqb (url r) "https://docs.example.com/guide/"
  then Ok (okWith "<main><h1>Guide</h1><p>Welcome.</p></main>")
  else Ok notFound.

Definition guideRequest : DocsetRequest :=
  {| baseUrl := "https://docs.example.com/guide";
     path := None; docsetType := None |}.

(** A page with a Sphinx generator meta tag and the MkDocs content
    wrapper. *)
Definition sphinxMetaMkdocsPage : Str.t :=
  "<meta name='generator' content='Sphinx 7.2.6'><div class='md-content'></div>".

(** A site without any search index, whose only sitemap is at its root. *)
Definition rootSitemap : Str.t :=
  "<urlset><url><loc>https://docs.example.com/docs/install</loc></url></urlset>".

Definition sitemapSite : Net := fun _ r =>
  if Str.eqb (url r) "https://docs.example.com/sitemap.xml"
  then Ok (okWith rootSitemap)
  else Ok notFound.


(** A site that answers every request with an empty page, a DOM layer that
    finds no content and no title, and a converter that keeps its input. *)
Definition blankSite : Net := fun _ _ => Ok (okWith "   ").
Definition noContent : Str.t -> DocsetType -> Str.t * Str.t :=
  fun _ _ => ([], []).
Definition noApple : Str.t -> M (Document + Str.t) :=
  fun u => ret (inr u).
Definition pageRequest : DocsetRequest :=
  {| baseUrl := "https://docs.example.com/page";
     path := None; docsetType := None |}.

(** The mocks of tests/docset.test.ts. *)

(** A text of the tests with its double quotes written as single ones. *)
Definition doubleQuoted (s : Str.t) : Str.t :=
  map (fun c => if Str.isChar "'" c then dq else c) s.

Definition alwaysAnswers (text : Str.t) : Net := fun _ _ => Ok (okWith text).

Definition testMkDocsIndex : list MkDoc.t :=
  [MkDoc.Make (Some (lit "Intro")) (Some (lit "Welcome to the guide"))
              (Some (lit "/intro/"));
   MkDoc.Make (Some (lit "Install")) (Some (lit "Setup steps"))
              (Some (lit "/install/"))].

Definition testSphinxRaw : Str.t :=
  doubleQuoted
    "Search.setIndex({'docnames':['intro','api'],'filenames':['intro.html','api.html'],'titles':['Intro','API Reference'],'terms':{'alpha':[0],'beta':[[1,2]]}});".

Definition testSphinxIndex : SphinxIndex.t :=
  SphinxIndex.Make
    (Some [Some (lit "intro"); Some (lit "api")])
    (Some [Some (lit "Intro"); Some (lit "API Reference")])
    (Some [Some (lit "intro.html"); Some (lit "api.html")])
    (Some [(lit "alpha", JArr [JNum 0]);
           (lit "beta", JArr [JArr [JNum 1; JNum 2]])]).

Definition sphinxSite : Net := fun _ r =>
  if Str.endsWith (url r) "searchindex.js" then Ok (okWith testSphinxRaw)
  else Ok notFound.

(** The sitemap of the last test, without its prolog and layout. *)
Definition testSitemap : Str.t :=
  "<urlset><url><loc>https://docs.example.com/guide/intro</loc></url><url><loc>https://docs.example.com/guide/install</loc></url></urlset>".

(** Five rejections, then the sitemap. *)
Definition afterFiveRejections : Net := fun log _ =>
  if length log <? 5 then Throw (lit "no index") else Ok (okWith testSitemap).

(** ** Vocabulary of the statements *)

(** No code unit of [s] satisfies [p]. *)
Definition noneOf (p : ascii -> bool) (s : Str.t) : Prop :=
  Forall (fun c => p c = false) s.

(** Printable ASCII. *)
Definition printable (c : ascii) : bool := Str.between 33 126 c.

Definition allPrintable (s : Str.t) : Prop :=
  Forall (fun c => printable c = true) s.

(** What the path of a URL record is never written with. *)
Definition pathUnsafe (c : ascii) : bool :=
  Url.pathSet c || Str.isChar "\" c.

(** What every URL record built by [Url.parse] and the setters satisfies. *)
Record wellFormed (u : Url.t) : Prop := {
  wf_scheme : Url.scheme u = lit "http" \/ Url.scheme u = lit "https";
  wf_host_nonempty : Url.host u <> [];
  wf_host : Forall (fun c => Url.hostChar c = true) (Url.host u);
  wf_host_lower : Str.toLowerCase (Url.host u) = Url.host u;
  wf_path : Str.startsWith (Url.pathname u) "/" = true;
  wf_path_chars : noneOf pathUnsafe (Url.pathname u);
  wf_query :
    match Url.query u with
    | Some q => noneOf Url.specialQuerySet q
    | None => True
    end;
  wf_fragment :
    match Url.fragment u with
    | Some f => noneOf Url.fragmentSet f
    | None => True
    end
}.

(** A path that [stripHtmlExtension] leaves alone: the root, or one that
    ends neither in a slash nor in [.html], [glossary.html] apart. *)
Definition stablePath (p : Str.t) : bool :=
  Str.eqb p "/"
  || (negb (Str.endsWith p "/")
      && (Str.endsWith p "glossary.html" || negb (Str.endsWith p ".html"))).

(** The three statements of [stripHtmlExtension] on the parsed URL. *)
Definition dropFragment (parsed : Url.t) : Url.t :=
  if negb (Str.isEmpty (Url.hash parsed)) then Url.setHash [] parsed
  else parsed.

Definition dropExtension (parsed : Url.t) : Url.t :=
  if Str.endsWith (Url.pathname parsed) "index.html" then
    Url.setPathname
      (orElse (Str.dropEnd (length (lit "/index.html"))
                 (Url.pathname parsed)) "/") parsed
  else if Str.endsWith (Url.pathname parsed) "glossary.html" then
    parsed
  else if Str.endsWith (Url.pathname parsed) ".html" then
    Url.setPathname
      (Str.dropEnd (length (lit ".html")) (Url.pathname parsed)) parsed
  else parsed.

Definition dropSlash (parsed : Url.t) : Url.t :=
  if negb (Str.eqb (Url.pathname parsed) "/")
     && Str.endsWith (Url.pathname parsed) "/"
  then Url.setPathname (Str.dropEnd 1 (Url.pathname parsed)) parsed
  else parsed.

Definition stripParsed (parsed : Url.t) : Url.t :=
  dropSlash (dropExtension (dropFragment parsed)).




(** [m] only adds requests to the log; [m] first makes the request [r]. *)
Definition extends {A : Type} (m : M A) : Prop :=
  forall log, exists more, fst (m log) = log ++ more.










(** ** Properties *)

(** *** Strings *)

Lemma str_eqb_eq (a b : Str.t) : Str.eqb a b = true <-> a = b.
Proof.
  revert b; induction a as [|x a IH]; intros [|y b]; simpl;
    try (split; (reflexivity || discriminate)).
  unfold Str.eqc. rewrite andb_true_iff, Ascii.eqb_eq, IH.
  split; [intros [-> ->]; reflexivity | intros H; inversion H; auto].
Qed.

Lemma str_eqb_refl (a : Str.t) : Str.eqb a a = true.
Proof. apply str_eqb_eq; reflexivity. Qed.

Lemma isEmpty_nil (s : Str.t) : Str.isEmpty s = true <-> s = [].
Proof. destruct s; simpl; split; congruence. Qed.

Lemma startsWith_iff (s pre : Str.t) :
  Str.startsWith s pre = true <-> exists r, s = pre ++ r.
Proof.
  revert s; induction pre as [|p pre IH]; intros s; simpl.
  - split; eauto.
  - destruct s as [|c s].
    + split; [discriminate | intros [r H]; discriminate].
    + unfold Str.eqc. rewrite andb_true_iff, Ascii.eqb_eq, IH. split.
      * intros [-> [r ->]]. eauto.
      * intros [r H]. inversion H; subst. eauto.
Qed.

Lemma endsWith_iff (s suf : Str.t) :
  Str.endsWith s suf = true <-> exists r, s = r ++ suf.
Proof.
  unfold Str.endsWith. rewrite startsWith_iff. split; intros [r H].
  - exists (rev r).
    rewrite <- (rev_involutive s), H, rev_app_distr, rev_involutive.
    reflexivity.
  - exists (rev r). rewrite H, rev_app_distr. reflexivity.
Qed.

Lemma endsWith_longer (s a b : Str.t) :
  Str.endsWith s (a ++ b) = true -> Str.endsWith s b = true.
Proof.
  rewrite !endsWith_iff. intros [r ->]. exists (r ++ a).
  rewrite <- app_assoc. reflexivity.
Qed.

Lemma dropWhile_none p (s : Str.t) : noneOf p s -> Str.dropWhile p s = s.
Proof. destruct 1 as [|c s H _]; simpl; [|rewrite H]; reflexivity. Qed.

Lemma strip_none p (s : Str.t) : noneOf p s -> Str.strip p s = s.
Proof.
  intros H. unfold Str.strip. rewrite (dropWhile_none H).
  rewrite dropWhile_none, rev_involutive; [reflexivity|].
  apply Forall_rev, H.
Qed.

Lemma cut_none p (s : Str.t) : noneOf p s -> Str.cut p s = (s, None).
Proof.
  induction 1 as [|c s H _ IH]; simpl; [reflexivity|].
  rewrite H, IH. reflexivity.
Qed.

Lemma cut_at p (a b : Str.t) (c : ascii) :
  noneOf p a -> p c = true -> Str.cut p (a ++ c :: b) = (a, Some b).
Proof.
  intros Ha Hc. induction Ha as [|x a H _ IH]; simpl.
  - rewrite Hc. reflexivity.
  - rewrite H, IH. reflexivity.
Qed.

Lemma break_at p (a b : Str.t) :
  noneOf p a ->
  match b with c :: _ => p c = true | [] => True end ->
  Str.break p (a ++ b) = (a, b).
Proof.
  intros Ha Hb. induction Ha as [|x a H _ IH]; simpl.
  - destruct b as [|c b]; simpl; [reflexivity|]. rewrite Hb. reflexivity.
  - rewrite H, IH. reflexivity.
Qed.

Lemma break_spec p (s a b : Str.t) :
  Str.break p s = (a, b) ->
  noneOf p a /\ s = a ++ b
  /\ match b with c :: _ => p c = true | [] => True end.
Proof.
  revert a b; induction s as [|x s IH]; simpl; intros a b.
  - intros H; inversion H; subst. repeat split. constructor.
  - destruct (p x) eqn:Hx.
    + intros H; inversion H; subst. repeat split; [constructor | exact Hx].
    + destruct (Str.break p s) as [a' b'] eqn:E.
      intros H; inversion H; subst.
      destruct (IH a' b eq_refl) as (Ha & -> & Hb).
      repeat split; [constructor; assumption | exact Hb].
Qed.

Lemma lowerChar_idem (c : ascii) :
  Str.lowerChar (Str.lowerChar c) = Str.lowerChar c.
Proof. destruct c as [[] [] [] [] [] [] [] []]; reflexivity. Qed.

Lemma toLowerCase_idem (s : Str.t) :
  Str.toLowerCase (Str.toLowerCase s) = Str.toLowerCase s.
Proof.
  unfold Str.toLowerCase. rewrite map_map. apply map_ext, lowerChar_idem.
Qed.

Lemma printable_not_whitespace (c : ascii) :
  printable c = true -> Str.isWhitespace c = false.
Proof. destruct c as [[] [] [] [] [] [] [] []]; intros H; reflexivity || discriminate H. Qed.

Lemma printable_not_control (c : ascii) :
  printable c = true -> Url.isC0OrSpace c = false.
Proof. destruct c as [[] [] [] [] [] [] [] []]; intros H; reflexivity || discriminate H. Qed.

Lemma allPrintable_noneOf_control (s : Str.t) :
  allPrintable s -> noneOf Url.isC0OrSpace s.
Proof. apply Forall_impl, printable_not_control. Qed.

Lemma allPrintable_noneOf_whitespace (s : Str.t) :
  allPrintable s -> noneOf Str.isWhitespace s.
Proof. apply Forall_impl, printable_not_whitespace. Qed.

Lemma isChar_eq (x c : ascii) : Str.isChar x c = true -> c = x.
Proof. unfold Str.isChar, Str.eqc. apply Ascii.eqb_eq. Qed.

(** *** The URL class *)

Ltac by_cases_on c :=
  destruct c as [[] [] [] [] [] [] [] []];
  intros; try reflexivity; try discriminate.

Ltac url_fields :=
  unfold Url.setPathname, Url.setHash, Url.setSearch in *;
  cbn [Url.scheme Url.host Url.pathname Url.query Url.fragment] in *.

Lemma hostChar_printable (c : ascii) :
  Url.hostChar c = true -> printable c = true.
Proof. by_cases_on c. Qed.

Lemma hostChar_lower (c : ascii) :
  Url.hostChar c = true -> Url.hostChar (Str.lowerChar c) = true.
Proof. by_cases_on c. Qed.

Lemma hostChar_not_slash (c : ascii) :
  Url.hostChar c = true -> Url.isSlash c = false.
Proof. by_cases_on c. Qed.

Lemma hostChar_not_query (c : ascii) :
  Url.hostChar c = true -> Str.isChar "?" c = false.
Proof. by_cases_on c. Qed.

Lemma hostChar_not_hash (c : ascii) :
  Url.hostChar c = true -> Str.isChar "#" c = false.
Proof. by_cases_on c. Qed.

Lemma pathUnsafe_printable (c : ascii) :
  pathUnsafe c = false -> printable c = true.
Proof. by_cases_on c. Qed.

Lemma pathUnsafe_not_query (c : ascii) :
  pathUnsafe c = false -> Str.isChar "?" c = false.
Proof. by_cases_on c. Qed.

Lemma pathUnsafe_not_hash (c : ascii) :
  pathUnsafe c = false -> Str.isChar "#" c = false.
Proof. by_cases_on c. Qed.

Lemma pathUnsafe_path (c : ascii) :
  pathUnsafe c = false -> Url.pathSet c = false.
Proof. by_cases_on c. Qed.

Lemma pathUnsafe_not_backslash (c : ascii) :
  pathUnsafe c = false -> Str.isChar "\" c = false.
Proof. by_cases_on c. Qed.

Lemma querySafe_printable (c : ascii) :
  Url.specialQuerySet c = false -> printable c = true.
Proof. by_cases_on c. Qed.

Lemma querySafe_not_hash (c : ascii) :
  Url.specialQuerySet c = false -> Str.isChar "#" c = false.
Proof. by_cases_on c. Qed.

Lemma fragmentSafe_printable (c : ascii) :
  Url.fragmentSet c = false -> printable c = true.
Proof. by_cases_on c. Qed.

(** What an escape is written with is never escaped again. *)
Lemma escape_path (c : ascii) :
  Url.pathSet c = true ->
  forallb (fun x => negb (pathUnsafe x)) (Url.percentEncodeChar Url.pathSet c)
  = true.
Proof. by_cases_on c. Qed.

Lemma escape_query (c : ascii) :
  Url.specialQuerySet c = true ->
  forallb (fun x => negb (Url.specialQuerySet x))
          (Url.percentEncodeChar Url.specialQuerySet c) = true.
Proof. by_cases_on c. Qed.

Lemma escape_fragment (c : ascii) :
  Url.fragmentSet c = true ->
  forallb (fun x => negb (Url.fragmentSet x))
          (Url.percentEncodeChar Url.fragmentSet c) = true.
Proof. by_cases_on c. Qed.

Lemma percentEncode_id (set : ascii -> bool) (s : Str.t) :
  noneOf set s -> Url.percentEncode set s = s.
Proof.
  induction 1 as [|c s H _ IH]; [reflexivity|].
  unfold Url.percentEncode in *. cbn [flat_map].
  unfold Url.percentEncodeChar at 1. rewrite H, IH. reflexivity.
Qed.

Lemma percentEncode_out (set safe : ascii -> bool) (s : Str.t) :
  (forall c, set c = true ->
             forallb (fun x => negb (safe x)) (Url.percentEncodeChar set c)
             = true) ->
  (forall c, In c s -> set c = false -> safe c = false) ->
  noneOf safe (Url.percentEncode set s).
Proof.
  intros Hesc. induction s as [|c s IH]; intros Hs; [constructor|].
  unfold Url.percentEncode. cbn [flat_map]. apply Forall_app. split.
  - destruct (set c) eqn:E.
    + specialize (Hesc c E). rewrite forallb_forall in Hesc.
      apply Forall_forall. intros x Hx. apply negb_true_iff, Hesc, Hx.
    + unfold Url.percentEncodeChar. rewrite E. repeat constructor.
      apply Hs; [left; reflexivity | exact E].
  - apply IH. intros x Hx. apply Hs. right. exact Hx.
Qed.

Lemma encodePath_safe (p : Str.t) : noneOf pathUnsafe (Url.encodePath p).
Proof.
  unfold Url.encodePath. apply percentEncode_out; [exact escape_path|].
  intros c Hc Hset. apply in_map_iff in Hc. destruct Hc as (x & Hx & _).
  unfold pathUnsafe. rewrite Hset. cbn [orb].
  destruct (Str.isChar "\" x) eqn:E; subst c; [reflexivity | exact E].
Qed.

Lemma encodePath_id (p : Str.t) : noneOf pathUnsafe p -> Url.encodePath p = p.
Proof.
  intros H. unfold Url.encodePath.
  assert (E : map (fun c => if Str.isChar "\" c then "/"%char else c) p = p).
  { rewrite <- (map_id p) at 2. apply map_ext_Forall.
    revert H. apply Forall_impl. intros c Hc.
    rewrite (pathUnsafe_not_backslash _ Hc). reflexivity. }
  rewrite E. apply percentEncode_id.
  revert H. apply Forall_impl, pathUnsafe_path.
Qed.

Lemma encodePath_slash (v : Str.t) :
  Url.startsWithSlash v = true ->
  Str.startsWith (Url.encodePath v) "/" = true.
Proof.
  destruct v as [|c v]; [discriminate|]. cbn [Url.startsWithSlash].
  intros H. unfold Url.encodePath, Url.percentEncode. cbn [map flat_map].
  unfold Url.isSlash in H. apply orb_prop in H.
  destruct H as [H|H]; apply isChar_eq in H; subst c; reflexivity.
Qed.

Lemma encodeQuery_safe (q : Str.t) :
  noneOf Url.specialQuerySet (Url.encodeQuery q).
Proof. apply percentEncode_out; [exact escape_query | auto]. Qed.

Lemma encodeFragment_safe (f : Str.t) :
  noneOf Url.fragmentSet (Url.encodeFragment f).
Proof. apply percentEncode_out; [exact escape_fragment | auto]. Qed.

Lemma clean_printable (s : Str.t) : allPrintable s -> Url.clean s = s.
Proof.
  intros H. unfold Url.clean.
  rewrite (strip_none (allPrintable_noneOf_control H)).
  apply forallb_filter_id, forallb_forall. intros c Hc.
  unfold allPrintable in H. rewrite Forall_forall in H.
  specialize (H c Hc). revert H. by_cases_on c.
Qed.

(** A well-formed URL is written in printable ASCII. *)
Lemma wellFormed_printable (u : Url.t) :
  wellFormed u -> allPrintable (Url.href u).
Proof.
  intros [Hs _ Hh _ _ Hp Hq Hf].
  unfold allPrintable, Url.href, Url.origin. rewrite !Forall_app.
  repeat split.
  - destruct Hs as [-> | ->]; repeat constructor.
  - repeat constructor.
  - revert Hh. apply Forall_impl, hostChar_printable.
  - revert Hp. apply Forall_impl, pathUnsafe_printable.
  - destruct (Url.query u) as [q|]; constructor; [reflexivity|].
    revert Hq. apply Forall_impl, querySafe_printable.
  - destruct (Url.fragment u) as [f|]; constructor; [reflexivity|].
    revert Hf. apply Forall_impl, fragmentSafe_printable.
Qed.

Lemma splitScheme_https (c : ascii) (r : Str.t) :
  Url.isSlash c = false ->
  Url.splitScheme ("https://" ++ c :: r) = Some (lit "https", c :: r).
Proof.
  intros H. unfold Url.splitScheme.
  change (Str.startsWith (Str.toLowerCase (firstn 6 ("https://" ++ c :: r)))
            "https:") with true.
  cbn [skipn app lit list_ascii_of_string Str.dropWhile].
  change (Url.isSlash "/") with true. cbn iota.
  rewrite H. reflexivity.
Qed.

Lemma splitScheme_http (c : ascii) (r : Str.t) :
  Url.isSlash c = false ->
  Url.splitScheme ("http://" ++ c :: r) = Some (lit "http", c :: r).
Proof.
  intros H. unfold Url.splitScheme.
  change (Str.startsWith (Str.toLowerCase (firstn 6 ("http://" ++ c :: r)))
            "https:") with false.
  change (Str.startsWith (Str.toLowerCase (firstn 5 ("http://" ++ c :: r)))
            "http:") with true.
  cbn [skipn app lit list_ascii_of_string Str.dropWhile].
  change (Url.isSlash "/") with true. cbn iota.
  rewrite H. reflexivity.
Qed.

Lemma splitScheme_scheme (s sch r : Str.t) :
  Url.splitScheme s = Some (sch, r) -> sch = lit "http" \/ sch = lit "https".
Proof.
  unfold Url.splitScheme.
  destruct (Str.startsWith _ _).
  - intros H; inversion H; auto.
  - destruct (Str.startsWith _ _); [|discriminate].
    intros H; inversion H; auto.
Qed.

Lemma splitScheme_href (u : Url.t) (rest : Str.t) :
  wellFormed u ->
  Url.splitScheme (Url.scheme u ++ "://" ++ Url.host u ++ rest)
  = Some (Url.scheme u, Url.host u ++ rest).
Proof.
  intros Hwf. destruct (Url.host u) as [|c h] eqn:Eh.
  - destruct (wf_host_nonempty Hwf Eh).
  - pose proof (wf_host Hwf) as Hh. rewrite Eh in Hh.
    inversion Hh as [|? ? Hc _]; subst.
    destruct (wf_scheme Hwf) as [E|E]; rewrite E.
    + apply splitScheme_http, hostChar_not_slash, Hc.
    + apply splitScheme_https, hostChar_not_slash, Hc.
Qed.

Lemma host_accepted (u : Url.t) :
  wellFormed u ->
  Str.isEmpty (Url.host u) || negb (forallb Url.hostChar (Url.host u))
  = false.
Proof.
  intros Hwf. destruct (Url.host u) as [|c h] eqn:Eh.
  - destruct (wf_host_nonempty Hwf Eh).
  - cbn [Str.isEmpty orb]. apply negb_false_iff, forallb_forall.
    pose proof (wf_host Hwf) as Hh. rewrite Eh, Forall_forall in Hh.
    exact Hh.
Qed.

(** How [Url.parse] reads what follows the scheme of a well-formed URL:
    the host, the path as [written] (possibly empty), query and fragment. *)
Lemma parse_written (u : Url.t) (written : Str.t) :
  wellFormed u ->
  written = [] \/ written = Url.pathname u ->
  Url.parse
    (Url.scheme u ++ "://" ++ Url.host u
       ++ (written
             ++ match Url.query u with Some q => "?" ++ q | None => [] end)
       ++ match Url.fragment u with Some f => "#" ++ f | None => [] end)
  = Some (Url.Make (Url.scheme u) (Url.host u)
            (if Str.isEmpty written then lit "/" else Url.pathname u)
            (Url.query u) (Url.fragment u)).
Proof.
  intros Hwf Hw.
  assert (Hwritten : noneOf pathUnsafe written
                     /\ match written with
                        | c :: _ => Url.isSlash c = true
                        | [] => True
                        end).
  { destruct Hw as [-> | ->]; [split; [constructor | exact I]|].
    split; [apply (wf_path_chars Hwf)|].
    pose proof (wf_path Hwf) as Hp. apply startsWith_iff in Hp.
    destruct Hp as [r ->]. reflexivity. }
  destruct Hwritten as [Hwc Hws].
  pose proof (wf_host Hwf) as Hh. pose proof (wf_query Hwf) as Hq.
  pose proof (wf_fragment Hwf) as Hf.
  set (qpart := match Url.query u with Some q => "?" ++ q | None => [] end).
  set (fpart := match Url.fragment u with Some f => "#" ++ f | None => [] end).
  assert (Hall : allPrintable
                   (Url.scheme u ++ "://" ++ Url.host u
                      ++ (written ++ qpart) ++ fpart)).
  { unfold allPrintable. rewrite !Forall_app. repeat split.
    - destruct (wf_scheme Hwf) as [-> | ->]; repeat constructor.
    - repeat constructor.
    - revert Hh. apply Forall_impl, hostChar_printable.
    - revert Hwc. apply Forall_impl, pathUnsafe_printable.
    - unfold qpart. destruct (Url.query u) as [q|]; constructor;
        [reflexivity|]. revert Hq. apply Forall_impl, querySafe_printable.
    - unfold fpart. destruct (Url.fragment u) as [f|]; constructor;
        [reflexivity|]. revert Hf. apply Forall_impl, fragmentSafe_printable. }
  unfold Url.parse. rewrite (clean_printable Hall).
  rewrite (splitScheme_href ((written ++ qpart) ++ fpart) Hwf).
  assert (Hhash : noneOf (Str.isChar "#") (Url.host u ++ written ++ qpart)).
  { unfold noneOf. rewrite !Forall_app. repeat split.
    - revert Hh. apply Forall_impl, hostChar_not_hash.
    - revert Hwc. apply Forall_impl, pathUnsafe_not_hash.
    - unfold qpart. destruct (Url.query u) as [q|]; constructor;
        [reflexivity|]. revert Hq. apply Forall_impl, querySafe_not_hash. }
  assert (Hcut1 : Str.cut (Str.isChar "#")
                    (Url.host u ++ (written ++ qpart) ++ fpart)
                  = (Url.host u ++ written ++ qpart, Url.fragment u)).
  { rewrite app_assoc. unfold fpart. destruct (Url.fragment u) as [f|].
    - change (lit "#" ++ f) with ("#"%char :: f).
      apply cut_at; [exact Hhash | reflexivity].
    - rewrite app_nil_r. apply cut_none, Hhash. }
  rewrite Hcut1. clear Hcut1 Hhash.
  assert (Hquery : noneOf (Str.isChar "?") (Url.host u ++ written)).
  { unfold noneOf. rewrite Forall_app. split.
    - revert Hh. apply Forall_impl, hostChar_not_query.
    - revert Hwc. apply Forall_impl, pathUnsafe_not_query. }
  assert (Hcut2 : Str.cut (Str.isChar "?") (Url.host u ++ written ++ qpart)
                  = (Url.host u ++ written, Url.query u)).
  { rewrite app_assoc. unfold qpart. destruct (Url.query u) as [q|].
    - change (lit "?" ++ q) with ("?"%char :: q).
      apply cut_at; [exact Hquery | reflexivity].
    - rewrite app_nil_r. apply cut_none, Hquery. }
  rewrite Hcut2. clear Hcut2 Hquery.
  assert (Hbreak : Str.break Url.isSlash (Url.host u ++ written)
                   = (Url.host u, written)).
  { apply break_at; [|exact Hws].
    revert Hh. apply Forall_impl, hostChar_not_slash. }
  rewrite Hbreak, (host_accepted Hwf), (wf_host_lower Hwf).
  assert (Hpath : Url.encodePath (if Str.isEmpty written then "/" else written)
                  = if Str.isEmpty written then lit "/" else Url.pathname u).
  { destruct Hw as [-> | ->]; [reflexivity|].
    destruct (Url.pathname u) eqn:Ep; [reflexivity|].
    cbn [Str.isEmpty]. rewrite <- Ep. apply encodePath_id.
    apply (wf_path_chars Hwf). }
  rewrite Hpath.
  assert (Hq' : option_map Url.encodeQuery (Url.query u) = Url.query u).
  { destruct (Url.query u) as [q|]; [|reflexivity]. cbn [option_map].
    unfold Url.encodeQuery. rewrite (percentEncode_id Hq). reflexivity. }
  assert (Hf' : option_map Url.encodeFragment (Url.fragment u)
                = Url.fragment u).
  { destruct (Url.fragment u) as [f|]; [|reflexivity]. cbn [option_map].
    unfold Url.encodeFragment. rewrite (percentEncode_id Hf). reflexivity. }
  rewrite Hq', Hf'. reflexivity.
Qed.

(** Reading back what [Url.href] wrote. *)
Lemma parse_href (u : Url.t) :
  wellFormed u -> Url.parse (Url.href u) = Some u.
Proof.
  intros Hwf.
  assert (E : Url.href u
              = Url.scheme u ++ "://" ++ Url.host u
                  ++ (Url.pathname u
                        ++ match Url.query u with
                           | Some q => "?" ++ q
                           | None => []
                           end)
                  ++ match Url.fragment u with
                     | Some f => "#" ++ f
                     | None => []
                     end).
  { unfold Url.href, Url.origin. rewrite <- !app_assoc. reflexivity. }
  rewrite E, (parse_written Hwf (or_intror eq_refl)).
  pose proof (wf_path Hwf) as Hp.
  destruct u as [sch h p q f]. cbn in *.
  destruct p; [discriminate Hp | reflexivity].
Qed.

(** Every parsed URL is well formed. *)
Lemma parse_wellFormed (s : Str.t) (u : Url.t) :
  Url.parse s = Some u -> wellFormed u.
Proof.
  unfold Url.parse.
  destruct (Url.splitScheme _) as [[sch r]|] eqn:Es; [|discriminate].
  destruct (Str.cut (Str.isChar "#") r) as [beforeHash frag].
  destruct (Str.cut (Str.isChar "?") beforeHash) as [beforeQuery q].
  destruct (Str.break Url.isSlash beforeQuery) as [authority p] eqn:Eb.
  destruct (Str.isEmpty authority) eqn:Ea; [discriminate|].
  destruct (forallb Url.hostChar authority) eqn:Eh; [|discriminate].
  intros H; inversion H; subst; clear H.
  destruct (break_spec _ _ Eb) as (_ & _ & Hp).
  rewrite forallb_forall in Eh.
  constructor; cbn [Url.scheme Url.host Url.pathname Url.query Url.fragment].
  - exact (splitScheme_scheme _ Es).
  - destruct authority; [discriminate Ea | discriminate].
  - apply Forall_map, Forall_forall. intros c Hc.
    apply hostChar_lower, Eh, Hc.
  - apply toLowerCase_idem.
  - apply encodePath_slash. destruct p as [|c p]; [reflexivity | exact Hp].
  - apply encodePath_safe.
  - destruct q; [apply encodeQuery_safe | exact I].
  - destruct frag; [apply encodeFragment_safe | exact I].
Qed.

(** *** [stripHtmlExtension] on the record *)

Lemma stripHtmlExtension_parsed (url : Str.t) (u : Url.t) :
  Url.parse url = Some u ->
  stripHtmlExtension url = Url.href (stripParsed u).
Proof. unfold stripHtmlExtension. intros ->. reflexivity. Qed.

Lemma setPathname_wellFormed (v : Str.t) (u : Url.t) :
  wellFormed u -> wellFormed (Url.setPathname v u).
Proof.
  intros [H1 H2 H3 H4 H5 H6 H7 H8]. constructor; url_fields; auto.
  - apply encodePath_slash. destruct (Url.startsWithSlash v) eqn:E;
      [exact E | reflexivity].
  - apply encodePath_safe.
Qed.

Lemma setHash_wellFormed (u : Url.t) :
  wellFormed u -> wellFormed (Url.setHash [] u).
Proof.
  intros [H1 H2 H3 H4 H5 H6 H7 H8].
  constructor; url_fields; cbn [Str.isEmpty]; auto.
Qed.


Lemma dropFragment_wellFormed (u : Url.t) :
  wellFormed u -> wellFormed (dropFragment u).
Proof.
  intros H. unfold dropFragment.
  destruct (negb _); [apply setHash_wellFormed|]; exact H.
Qed.

Lemma dropExtension_wellFormed (u : Url.t) :
  wellFormed u -> wellFormed (dropExtension u).
Proof.
  intros H. unfold dropExtension.
  repeat match goal with
         | |- context [if ?c then _ else _] => destruct c
         end; try apply setPathname_wellFormed; exact H.
Qed.

Lemma dropSlash_wellFormed (u : Url.t) :
  wellFormed u -> wellFormed (dropSlash u).
Proof.
  intros H. unfold dropSlash.
  destruct (_ && _); [apply setPathname_wellFormed|]; exact H.
Qed.

Lemma stripParsed_wellFormed (u : Url.t) :
  wellFormed u -> wellFormed (stripParsed u).
Proof.
  intros H. unfold stripParsed.
  apply dropSlash_wellFormed, dropExtension_wellFormed,
    dropFragment_wellFormed, H.
Qed.

Lemma stripParsed_hash (u : Url.t) : Url.hash (stripParsed u) = [].
Proof.
  assert (H1 : Url.hash (dropFragment u) = []).
  { unfold dropFragment. destruct (Str.isEmpty (Url.hash u)) eqn:E.
    - apply isEmpty_nil, E.
    - reflexivity. }
  unfold stripParsed. revert H1. generalize (dropFragment u).
  intros w H1. unfold dropSlash, dropExtension.
  repeat match goal with
         | |- context [if ?c then _ else _] => destruct c
         end; exact H1.
Qed.

Lemma endsWith_glossary_not_index (p : Str.t) :
  Str.endsWith p "glossary.html" = true ->
  Str.endsWith p "index.html" = false.
Proof.
  rewrite endsWith_iff. intros [r ->].
  unfold Str.endsWith. rewrite rev_app_distr. reflexivity.
Qed.

(** A URL without fragment whose path is stable is left as it is. *)
Lemma stripParsed_stable (u : Url.t) :
  Url.hash u = [] -> stablePath (Url.pathname u) = true ->
  stripParsed u = u.
Proof.
  intros Hh Hs. unfold stripParsed, dropFragment. rewrite Hh.
  cbn [Str.isEmpty negb].
  unfold stablePath in Hs. apply orb_prop in Hs. destruct Hs as [Hs|Hs].
  - apply str_eqb_eq in Hs.
    assert (Hext : dropExtension u = u).
    { unfold dropExtension. rewrite Hs. reflexivity. }
    rewrite Hext. unfold dropSlash. rewrite Hs. reflexivity.
  - apply andb_prop in Hs. destruct Hs as [Hslash Hs].
    apply negb_true_iff in Hslash.
    assert (Hidx : Str.endsWith (Url.pathname u) "index.html" = false).
    { apply orb_prop in Hs. destruct Hs as [Hs|Hs].
      - apply endsWith_glossary_not_index, Hs.
      - apply negb_true_iff in Hs.
        destruct (Str.endsWith (Url.pathname u) "index.html") eqn:E;
          [|reflexivity].
        rewrite <- Hs. symmetry.
        apply (endsWith_longer (Url.pathname u) (lit "index") (lit ".html")),
          E. }
    assert (Hext : dropExtension u = u).
    { unfold dropExtension. rewrite Hidx.
      destruct (Str.endsWith (Url.pathname u) "glossary.html");
        [reflexivity|].
      cbn [orb] in Hs. apply negb_true_iff in Hs. rewrite Hs. reflexivity. }
    rewrite Hext. unfold dropSlash. rewrite Hslash, andb_false_r.
    reflexivity.
Qed.

(** *** The normaliser *)

Lemma httpRe_href (u : Url.t) :
  wellFormed u -> Regex.test httpRe (Url.href u) = true.
Proof.
  intros H. unfold Url.href, Url.origin. rewrite <- !app_assoc.
  destruct (wf_scheme H) as [E|E]; rewrite E; reflexivity.
Qed.

Lemma href_not_empty (u : Url.t) :
  wellFormed u -> Str.isEmpty (Url.href u) = false.
Proof.
  intros H. unfold Url.href, Url.origin. rewrite <- !app_assoc.
  destruct (wf_scheme H) as [E|E]; rewrite E; reflexivity.
Qed.

Lemma trim_href (u : Url.t) :
  wellFormed u -> Str.trim (Url.href u) = Url.href u.
Proof.
  intros H. apply strip_none, allPrintable_noneOf_whitespace,
    wellFormed_printable, H.
Qed.

(** Without a path argument, [resolveTargetUrl] parses the base and writes
    it back. *)
Lemma resolveTargetUrl_base (b out : Str.t) :
  resolveTargetUrl b None = Ok out ->
  exists u, wellFormed u /\ out = Url.href u.
Proof.
  unfold resolveTargetUrl.
  destruct (Str.isEmpty (Str.trim b)); [discriminate|].
  cbn [Str.isEmpty negb andb].
  destruct (Url.parse _) as [u|] eqn:E; [|discriminate].
  cbv zeta. intros H; inversion H; subst. exists u.
  split; [eapply parse_wellFormed; eassumption | reflexivity].
Qed.

Lemma resolveTargetUrl_href (u : Url.t) :
  wellFormed u -> resolveTargetUrl (Url.href u) None = Ok (Url.href u).
Proof.
  intros Hwf. unfold resolveTargetUrl.
  rewrite (trim_href Hwf), (href_not_empty Hwf), (httpRe_href Hwf).
  cbn [Str.isEmpty negb andb].
  rewrite (parse_href Hwf). reflexivity.
Qed.

(** What one pass of the normaliser returns. *)
Lemma normalizeUrl_shape (b out : Str.t) :
  normalizeUrl b = Ok out ->
  exists u, wellFormed u /\ Url.hash u = [] /\ out = Url.href u.
Proof.
  unfold normalizeUrl.
  destruct (resolveTargetUrl b None) as [resolved|e] eqn:E; [|discriminate].
  destruct (resolveTargetUrl_base _ E) as (u0 & Hwf & ->).
  cbn [andThen].
  rewrite (stripHtmlExtension_parsed _ (parse_href Hwf)).
  intros H; inversion H; subst. exists (stripParsed u0).
  split; [apply stripParsed_wellFormed, Hwf|].
  split; [apply stripParsed_hash | reflexivity].
Qed.

(** C8, counterexample: one pass strips one extension and one slash, so a
    second pass can strip again. *)
Lemma normalizeUrl_twice_differs :
  normalizeUrl "https://docs.example.com/a.html.html"
    = Ok (lit "https://docs.example.com/a.html")
  /\ normalizeUrl "https://docs.example.com/a.html"
     = Ok (lit "https://docs.example.com/a")
  /\ lit "https://docs.example.com/a.html" <> lit "https://docs.example.com/a"
  /\ normalizeUrl "https://docs.example.com/guide//"
     = Ok (lit "https://docs.example.com/guide/")
  /\ normalizeUrl "https://docs.example.com/guide/"
     = Ok (lit "https://docs.example.com/guide").
Proof.
  repeat split; try (vm_compute; reflexivity).
  vm_compute. discriminate.
Qed.

(** C8, as amended: the normaliser returns its own output unchanged
    whenever the path of that output is the root, or ends neither in a
    slash nor in [.html], or ends in [glossary.html]. *)
Theorem normalizeUrl_idempotent_on_stable (b out : Str.t) (u : Url.t) :
  normalizeUrl b = Ok out ->
  Url.parse out = Some u ->
  stablePath (Url.pathname u) = true ->
  normalizeUrl out = Ok out.
Proof.
  intros Hn Hparse Hstable.
  destruct (normalizeUrl_shape _ Hn) as (u' & Hwf & Hhash & ->).
  rewrite (parse_href Hwf) in Hparse.
  inversion Hparse; subst u'; clear Hparse.
  unfold normalizeUrl. rewrite (resolveTargetUrl_href Hwf).
  cbn [andThen].
  rewrite (stripHtmlExtension_parsed _ (parse_href Hwf)).
  rewrite (stripParsed_stable _ Hhash Hstable). reflexivity.
Qed.

Lemma normalizeUrl_idempotent_on_stable_witness :
  normalizeUrl "https://docs.example.com/guide/glossary.html"
    = Ok (lit "https://docs.example.com/guide/glossary.html").
Proof.
  apply (@normalizeUrl_idempotent_on_stable
           (lit "https://docs.example.com/guide/glossary.html#terms")
           (lit "https://docs.example.com/guide/glossary.html")
           (Url.Make "https" "docs.example.com" "/guide/glossary.html"
                     None None));
    vm_compute; reflexivity.
Defined.

(** *** The matcher *)












(** *** The versioned documentation root *)


(** *** Resolving a rooted path against an origin *)






(** *** Candidate bases *)











(** *** Detection *)

(** C2, counterexample: the page names Sphinx in its generator meta tag,
    carries the MkDocs wrapper class, is served from no first-party host,
    and is detected as [mkdocs], not as [sphinx]. *)
Lemma detect_sphinx_meta_with_mkdocs_marker :
  getGenerator sphinxMetaMkdocsPage = "sphinx 7.2.6"
  /\ Str.includes (getGenerator sphinxMetaMkdocsPage) "sphinx" = true
  /\ hasAny sphinxMetaMkdocsPage mkdocsMarkers = true
  /\ isAppleHost "https://docs.example.com/" = false
  /\ detectDocsetType sphinxMetaMkdocsPage "https://docs.example.com/"
     = mkdocs
  /\ detectDocsetType sphinxMetaMkdocsPage "https://docs.example.com/"
     <> sphinx.
Proof.
  repeat split; try (vm_compute; reflexivity).
  vm_compute; discriminate.
Qed.

(** C2, as amended: generators are tried in their declared order and each
    accepts its generator-meta keyword or one of its markers.  A page from
    no first-party host, without any Docusaurus signal and with a MkDocs
    marker, is [mkdocs] whatever its generator meta tag names. *)
Theorem detect_mkdocs_marker_outranks_later_meta (html url : Str.t) :
  isAppleHost url = false ->
  Str.includes (getGenerator html) "docusaurus" = false ->
  hasAny html docusaurusMarkers = false ->
  hasAny html mkdocsMarkers = true ->
  detectDocsetType html url = mkdocs.
Proof.
  intros Hhost Hgen Hdocu Hmk. unfold detectDocsetType.
  rewrite Hhost, Hgen, Hdocu, Hmk. simpl.
  rewrite orb_true_r. reflexivity.
Qed.

Lemma detect_mkdocs_marker_outranks_later_meta_witness :
  Str.includes (getGenerator sphinxMetaMkdocsPage) "sphinx" = true
  /\ detectDocsetType sphinxMetaMkdocsPage "https://docs.example.com/"
     = mkdocs.
Proof.
  split; [vm_compute; reflexivity|].
  apply detect_mkdocs_marker_outranks_later_meta; vm_compute; reflexivity.
Defined.

(** *** Fetching one document *)

(** C1 (the code departs from the claim): the target fails, the target
    with a trailing slash is fetched and answers 200, and the call still
    rejects with the error of the first fetch. *)
Theorem slash_retry_result_is_discarded :
  forall turndown extractDocContent appleDocument,
    resolveTargetUrl (baseUrl guideRequest) (path guideRequest)
      = Ok (lit "https://docs.example.com/guide")
    /\ stripHtmlExtension "https://docs.example.com/guide"
       = "https://docs.example.com/guide"
    /\ fetchHtml guideSite "https://docs.example.com/guide/"
         [htmlRequest "https://docs.example.com/guide"]
       = ([htmlRequest "https://docs.example.com/guide";
           htmlRequest "https://docs.example.com/guide/"],
          Ok (lit "<main><h1>Guide</h1><p>Welcome.</p></main>"))
    /\ fetchDocumentationMarkdown guideSite turndown extractDocContent
         appleDocument guideRequest []
       = ([htmlRequest "https://docs.example.com/guide";
           htmlRequest "https://docs.example.com/guide/"],
          Throw (lit "Failed to fetch HTML: 404 Not Found")).
Proof.
  intros. repeat split; vm_compute; reflexivity.
Qed.

(** Whatever the retry with a slash obtains, a failed first fetch of an
    already normal URL ends in that first error. *)
Lemma fetchWithFallbacks_rethrows (net : Net) (u : Str.t) log log1 e :
  fetchHtml net u log = (log1, Throw e) ->
  exists log2, fetchWithFallbacks net u u u log = (log2, Throw e).
Proof.
  intros H. unfold fetchWithFallbacks, tryCatch at 1.
  unfold bind at 1. rewrite H.
  rewrite str_eqb_refl. cbn [negb].
  unfold bind at 1.
  match goal with
  | |- context [if ?c then _ else _] => destruct c
  end.
  - unfold tryCatch, bind at 1.
    destruct (fetchHtml net (u ++ "/") log1) as [l [h|e']];
      unfold ret, throw; eauto.
  - unfold ret, throw; eauto.
Qed.

(** C5 (the code departs from the claim): the test is on the suffix
    [index.html] while eleven characters are cut, so [/myindex.html] loses
    more than its extension. *)
Theorem stripHtmlExtension_myindex :
  stripHtmlExtension "https://docs.example.com/myindex.html"
    = "https://docs.example.com/m"
  /\ normalizeUrl "https://docs.example.com/myindex.html"
     = Ok (lit "https://docs.example.com/m")
  /\ stripHtmlExtension "https://docs.example.com/guide/glossary.html#terms"
     = "https://docs.example.com/guide/glossary.html".
Proof. repeat split; vm_compute; reflexivity. Qed.

(** *** Searching *)

(** C9: a query that is blank after trimming returns the empty list; the
    log of requests is unchanged, so the fetch capability is not invoked,
    and nothing is thrown, whatever the base URL. *)
Theorem search_blank_query (net : Net) jsonMkDocs jsonSphinx
    (baseUrl query : Str.t) (docsetType : option DocsetType)
    (log : list Request) :
  Str.trim query = [] ->
  searchDocumentation net jsonMkDocs jsonSphinx baseUrl query docsetType log
    = (log, Ok []).
Proof.
  intros H. unfold searchDocumentation, searchWith, normalizeQuery.
  rewrite H. reflexivity.
Qed.

Lemma search_blank_query_witness :
  searchDocumentation sitemapSite (fun _ => None) (fun _ => None)
    "https://docs.example.com/docs/guide" "   " None []
    = ([], Ok []).
Proof. apply search_blank_query. vm_compute. reflexivity. Defined.

(** One [try] holds the whole loop over the sitemaps: the first fetch that
    fails ends the search with no result. *)
Lemma sitemap_stage_stops_at_failure (net : Net) (q base : Str.t)
    (bases : list Str.t) (log log1 : list Request) (e : Str.t) :
  fetchText net (toAbsoluteUrl base "sitemap.xml") log = (log1, Throw e) ->
  tryCatch (overSitemaps net q (base :: bases)) (fun _ => ret []) log
  = (log1, Ok []).
Proof.
  intros H. unfold tryCatch. cbn [overSitemaps]. unfold bind.
  rewrite H. reflexivity.
Qed.

(** C3 (the code departs from the claim): no index answers, the sitemap of
    the first candidate base is missing, the sitemap of the last one lists
    a matching location, and the call returns the empty list after the
    first sitemap request. *)
Theorem sitemap_failure_ends_the_fallback :
  forall jsonMkDocs jsonSphinx,
    buildSearchBaseCandidates "https://docs.example.com/docs/guide"
      = Ok [lit "https://docs.example.com/docs/";
            lit "https://docs.example.com/docs/guide/";
            lit "https://docs.example.com/"]
    /\ parseSitemap rootSitemap "https://docs.example.com/" "install"
       = [SearchResult.Make "install"
            "https://docs.example.com/docs/install" [] "sitemap"]
    /\ exists log,
         searchDocumentation sitemapSite jsonMkDocs jsonSphinx
           "https://docs.example.com/docs/guide" "install" None []
         = (log, Ok [])
         /\ last log (indexRequest [])
            = indexRequest "https://docs.example.com/docs/sitemap.xml"
         /\ ~ In (indexRequest "https://docs.example.com/sitemap.xml") log.
Proof.
  intros. split; [vm_compute; reflexivity|].
  split; [vm_compute; reflexivity|].
  eexists. split; [vm_compute; reflexivity|].
  split; [reflexivity|].
  intros H. repeat (destruct H as [H|H]; [discriminate H|]). exact H.
Qed.

Lemma isType_other (d hint : DocsetType) :
  hint <> d -> isType d (Some hint) = false.
Proof. destruct d, hint; intros H; try reflexivity; congruence. Qed.

Lemma probeIndex_other (net : Net) (mk sx : Parser) (hint : DocsetType)
    (base path q : Str.t) (log : list Request) :
  hint <> mkdocs -> hint <> sphinx ->
  probeIndex net mk sx (Some hint) base path q log
  = match fetchText net (toAbsoluteUrl base path) log with
    | (log', Ok _) => (log', Ok None)
    | (log', Throw e) => (log', Throw e)
    end.
Proof.
  intros Hm Hs. unfold probeIndex.
  rewrite (isType_other Hm), (isType_other Hs).
  cbn [orb]. rewrite !andb_false_r.
  unfold bind, ret.
  destruct (fetchText net (toAbsoluteUrl base path) log) as [l [raw|e]];
    reflexivity.
Qed.

Lemma overPaths_other (net : Net) (mk sx mk' sx' : Parser)
    (hint : DocsetType) (q base : Str.t) :
  hint <> mkdocs -> hint <> sphinx ->
  forall paths log, exists log',
    overPaths net mk sx (Some hint) q base paths log = (log', Ok None)
    /\ overPaths net mk' sx' (Some hint) q base paths log = (log', Ok None).
Proof.
  intros Hm Hs. induction paths as [|path paths IH]; intros log.
  - exists log. split; reflexivity.
  - cbn [overPaths]. unfold bind, tryCatch.
    rewrite !probeIndex_other by assumption.
    destruct (fetchText net (toAbsoluteUrl base path) log) as [l [raw|e]];
      cbn; apply IH.
Qed.

Lemma overBases_other (net : Net) (mk sx mk' sx' : Parser)
    (hint : DocsetType) (q : Str.t) (paths : list Str.t) :
  hint <> mkdocs -> hint <> sphinx ->
  forall bases log, exists log',
    overBases net mk sx (Some hint) q bases paths log = (log', Ok None)
    /\ overBases net mk' sx' (Some hint) q bases paths log = (log', Ok None).
Proof.
  intros Hm Hs. induction bases as [|base bases IH]; intros log.
  - exists log. split; reflexivity.
  - cbn [overBases]. unfold bind.
    destruct (overPaths_other net mk sx mk' sx' q base Hm Hs paths log)
      as (l & -> & ->).
    apply IH.
Qed.

Lemma parseSitemap_source (raw base q : Str.t) :
  Forall (fun r => SearchResult.source r = lit "sitemap")
         (parseSitemap raw base q).
Proof.
  unfold parseSitemap. apply Forall_map, Forall_forall. reflexivity.
Qed.

Lemma overSitemaps_source (net : Net) (q : Str.t) :
  forall bases log log' results,
    overSitemaps net q bases log = (log', Ok results) ->
    Forall (fun r => SearchResult.source r = lit "sitemap") results.
Proof.
  induction bases as [|base bases IH]; intros log log' results.
  - cbn. intros H; inversion H; constructor.
  - cbn [overSitemaps]. unfold bind.
    destruct (fetchText net (toAbsoluteUrl base "sitemap.xml") log)
      as [l [raw|e]]; [|discriminate].
    destruct (noResults (parseSitemap raw base q)).
    + apply IH.
    + unfold ret. intros H; inversion H; subst. apply parseSitemap_source.
Qed.

(** C10: with a hint other than [mkdocs] and [sphinx] the two index
    parsers are not applied: the call behaves the same for any other pair
    of parsers put in their place, and every result it returns comes from
    the sitemap parser. *)
Theorem search_other_hint_only_sitemap (net : Net) jsonMkDocs jsonSphinx
    (mk sx : Parser) (baseUrl query : Str.t) (hint : DocsetType)
    (log : list Request) :
  hint <> mkdocs -> hint <> sphinx ->
  searchDocumentation net jsonMkDocs jsonSphinx baseUrl query (Some hint) log
    = searchWith net mk sx baseUrl query (Some hint) log
  /\ forall log' results,
       searchDocumentation net jsonMkDocs jsonSphinx baseUrl query
         (Some hint) log = (log', Ok results) ->
       Forall (fun r => SearchResult.source r = lit "sitemap") results.
Proof.
  intros Hm Hs. unfold searchDocumentation, searchWith.
  destruct (Str.isEmpty (normalizeQuery query)).
  { split; [reflexivity|]. intros log' results H; inversion H; constructor. }
  unfold bind, lift.
  destruct (buildSearchBaseCandidates baseUrl) as [bases|e].
  2: { split; [reflexivity|]. intros log' results H; discriminate H. }
  match goal with
  | |- context [overBases net (parseMkDocsIndex jsonMkDocs)
                  (parseSphinxIndex jsonSphinx) _ ?q bases ?paths log] =>
      destruct (overBases_other net (parseMkDocsIndex jsonMkDocs)
                  (parseSphinxIndex jsonSphinx) mk sx q paths Hm Hs bases log)
        as (l & -> & ->)
  end.
  split; [reflexivity|].
  intros log' results. unfold tryCatch.
  destruct (overSitemaps net (normalizeQuery query) bases l)
    as [l' [rs|e]] eqn:E.
  - intros H; inversion H; subst. eapply overSitemaps_source; eassumption.
  - unfold ret. intros H; inversion H; constructor.
Qed.

Lemma search_other_hint_only_sitemap_witness :
  searchDocumentation sitemapSite (fun _ => None) (fun _ => None)
    "https://docs.example.com/" "install" (Some docusaurus) []
  = searchWith sitemapSite (fun _ _ _ => Ok []) (fun _ _ _ => Ok [])
      "https://docs.example.com/" "install" (Some docusaurus) []
  /\ exists log,
       searchDocumentation sitemapSite (fun _ => None) (fun _ => None)
         "https://docs.example.com/" "install" (Some docusaurus) []
       = (log, Ok [SearchResult.Make "install"
                     "https://docs.example.com/docs/install" [] "sitemap"])
       /\ length log = 6.
Proof.
  split.
  - apply (search_other_hint_only_sitemap sitemapSite (fun _ => None)
             (fun _ => None) (fun _ _ _ => Ok []) (fun _ _ _ => Ok [])
             "https://docs.example.com/" "install" (hint := docusaurus) []);
      discriminate.
  - eexists. split; vm_compute; reflexivity.
Defined.

(** C6 (the code departs from the claim): when the extracted fragment
    converts to nothing, the whole page is converted, the title heading is
    prepended when applicable, and the type is set to [html], a string
    that [docsetTypes] does not list. *)
Theorem empty_extraction_falls_back_to_html (net : Net)
    (turndown : Str.t -> Str.t)
    (extractDocContent : Str.t -> DocsetType -> Str.t * Str.t)
    (appleDocument : Str.t -> M (Document + Str.t))
    (request : DocsetRequest) (resolvedUrl html fetchUrl title contentHtml
      : Str.t) (log log' : list Request) :
  isType apple (docsetType request) = false ->
  resolveTargetUrl (baseUrl request) (path request) = Ok resolvedUrl ->
  isAppleHost (stripHtmlExtension resolvedUrl) = false ->
  fetchWithFallbacks net resolvedUrl (stripHtmlExtension resolvedUrl)
    (stripHtmlExtension resolvedUrl) log = (log', Ok (html, fetchUrl)) ->
  extractDocContent html
    (match docsetType request with
     | Some d => d
     | None => detectDocsetType html fetchUrl
     end) = (title, contentHtml) ->
  htmlToMarkdown turndown contentHtml = [] ->
  fetchDocumentationMarkdown net turndown extractDocContent appleDocument
    request log
  = (log',
     Ok {| markdown :=
             if negb (Str.isEmpty title)
                && negb (Str.startsWith (htmlToMarkdown turndown html)
                           ("# " ++ title))
             then "# " ++ title ++ [nl; nl] ++ htmlToMarkdown turndown html
             else htmlToMarkdown turndown html;
           docUrl := fetchUrl;
           docType := "html" |})
  /\ ~ In (lit "html") docsetTypes.
Proof.
  intros Happle Hres Hhost Hfetch Hextract Hempty. split.
  - unfold fetchDocumentationMarkdown.
    unfold bind at 1, lift. rewrite Hres, Happle, Hhost. cbn [orb].
    unfold bind at 1, ret at 1.
    unfold bind at 1. rewrite Hfetch.
    rewrite Hextract, Hempty. reflexivity.
  - intros H. repeat (destruct H as [H|H]; [discriminate H|]). exact H.
Qed.

Lemma empty_extraction_falls_back_to_html_witness :
  fetchDocumentationMarkdown blankSite (fun s => s) noContent noApple
    pageRequest []
  = ([htmlRequest "https://docs.example.com/page"],
     Ok {| markdown := []; docUrl := "https://docs.example.com/page";
           docType := "html" |})
  /\ ~ In (lit "html") docsetTypes.
Proof.
  apply (@empty_extraction_falls_back_to_html blankSite (fun s => s)
           noContent noApple pageRequest
           (lit "https://docs.example.com/page") (lit "   ")
           (lit "https://docs.example.com/page") [] [] []
           [htmlRequest "https://docs.example.com/page"]);
    vm_compute; reflexivity.
Defined.

(** *** The order of the requests *)

Lemma extends_ret {A} (a : A) : extends (ret a).
Proof. intros log. exists []. cbn. symmetry. apply app_nil_r. Qed.

Lemma extends_throw {A} (e : Str.t) : extends (@throw A e).
Proof. intros log. exists []. cbn. symmetry. apply app_nil_r. Qed.

Lemma extends_lift {A} (r : result A) : extends (lift r).
Proof. intros log. exists []. cbn. symmetry. apply app_nil_r. Qed.







Create HintDb requests.
#[local] Hint Resolve extends_ret extends_throw extends_lift : requests.












(** *** Ranking Sphinx documents *)

























(** *** The tests of the repository, replayed *)

Example test_detects_common_generators :
  detectDocsetType (doubleQuoted "<meta name='generator' content='Docusaurus' />")
    "https://x" = docusaurus
  /\ detectDocsetType (doubleQuoted "<meta name='generator' content='MkDocs' />")
       "https://x" = mkdocs
  /\ detectDocsetType (doubleQuoted "<meta name='generator' content='Sphinx' />")
       "https://x" = sphinx
  /\ detectDocsetType (doubleQuoted "<meta name='generator' content='TypeDoc' />")
       "https://x" = typedoc
  /\ detectDocsetType (doubleQuoted "<meta name='generator' content='JSDoc 3' />")
       "https://x" = jsdoc
  /\ detectDocsetType (doubleQuoted "<meta name='generator' content='rustdoc' />")
       "https://x" = rustdoc
  /\ detectDocsetType "<html></html>" "https://pkg.go.dev/foo" = godoc
  /\ detectDocsetType (doubleQuoted "<meta name='generator' content='pdoc' />")
       "https://x" = pdoc
  /\ detectDocsetType "<main>hello</main>" "https://x" = generic.
Proof. repeat split; vm_compute; reflexivity. Qed.

Example test_resolves_target_urls :
  andThen (resolveTargetUrl "https://docs.example.com"
             (Some (lit "/guide/intro")))
          (fun r => Ok (stripHtmlExtension r))
    = Ok (lit "https://docs.example.com/guide/intro")
  /\ normalizeUrl "https://docs.python.org/3/library/asyncio.html"
     = Ok (lit "https://docs.python.org/3/library/asyncio")
  /\ andThen (resolveTargetUrl
                "https://docs.python.org/3/library/asyncio.html"
                (Some (lit "subtasks.html")))
             (fun r => Ok (stripHtmlExtension r))
     = Ok (lit "https://docs.python.org/3/library/subtasks")
  /\ andThen (resolveTargetUrl "https://docs.example.com/en/stable/"
                (Some (lit "/guide/intro")))
             (fun r => Ok (stripHtmlExtension r))
     = Ok (lit "https://docs.example.com/en/stable/guide/intro")
  /\ normalizeUrl "https://docs.example.com/guide/glossary.html#terms"
     = Ok (lit "https://docs.example.com/guide/glossary.html").
Proof. repeat split; vm_compute; reflexivity. Qed.

Example test_searches_mkdocs_index :
  searchDocumentation (alwaysAnswers "{}")
    (fun _ => Some (Some testMkDocsIndex)) (fun _ => None)
    "https://docs.example.com" "install" (Some mkdocs) []
  = ([indexRequest "https://docs.example.com/search/search_index.json"],
     Ok [SearchResult.Make "Install" "https://docs.example.com/install/"
           "Setup steps" "mkdocs"]).
Proof. vm_compute. reflexivity. Qed.

Example test_searches_mkdocs_index_under_versioned_subpaths :
  fst (searchDocumentation (alwaysAnswers "{}")
         (fun _ => Some (Some [MkDoc.Make (Some (lit "Intro"))
                                 (Some (lit "Welcome")) (Some (lit "intro/"))]))
         (fun _ => None)
         "https://docs.example.com/en/stable/reference/foo/" "intro"
         (Some mkdocs) [])
  = [indexRequest
       "https://docs.example.com/en/stable/search/search_index.json"].
Proof. vm_compute. reflexivity. Qed.

Example test_searches_sphinx_index :
  searchDocumentation sphinxSite (fun _ => None)
    (fun _ => Some testSphinxIndex)
    "https://docs.example.com/en/stable/reference/foo/" "alpha" (Some sphinx)
    []
  = ([indexRequest "https://docs.example.com/en/stable/searchindex.js"],
     Ok [SearchResult.Make "Intro"
           "https://docs.example.com/en/stable/intro.html" [] "sphinx"]).
Proof. vm_compute. reflexivity. Qed.

Example test_falls_back_to_sitemap :
  snd (searchDocumentation afterFiveRejections (fun _ => None)
         (fun _ => None) "https://docs.example.com" "intro" None [])
  = Ok [SearchResult.Make "intro" "https://docs.example.com/guide/intro" []
          "sitemap"].
Proof. vm_compute. reflexivity. Qed.
